(** * pgctl.service: the Service entity, its status classifier, lock scope,
    directory-structure ensurer and supervisor launcher.

    The module is effectful throughout: it reads and writes the process
    environment, the file system, the descriptor table and talks to the
    supervision daemon.  It is embedded as state passing over a [World]
    record, in a small state-and-exception monad [M].  Calls that leave the
    process (status queries, directives, lock attempts, spawned programs)
    leave an [event] in the world's trace, so that statements about what was
    or was not attempted are statements about the trace.

    Left out: the debug and trace log lines, and the timeout properties
    (floats read from override files), which no property below concerns. *)

From Stdlib Require Import Ascii String.
From stdpp Require Import gmap strings list fin_maps pretty.

Open Scope string_scope.
Open Scope list_scope.
Open Scope Z_scope.

(** ** Paths (py.path.local values) *)

(** A py.path.local value: an absolute path, as the list of its components,
    outermost first. *)
Abbreviation pypath := (list string).

Definition join (p : pypath) (name : string) : pypath := p ++ [name].

Definition dirpath (p : pypath) : pypath := removelast p.

Definition basename (p : pypath) : string := List.last p "".

Fixpoint concat_components (p : pypath) : string :=
  match p with
  | [] => ""
  | c :: p' => "/" +:+ c +:+ concat_components p'
  end.

Definition strpath (p : pypath) : string :=
  match p with
  | [] => "/"
  | _ => concat_components p
  end.

(** A relative name looked up from the working directory. *)
Definition from_cwd (cwd : pypath) (name : string) : pypath :=
  if decide (name = "") then cwd else cwd ++ [name].

(** ** Data *)

(** daemontools.SvStat: the parsed status of a service. *)
Record SvStat := mkSvStat {
  state : string;
  pid : option Z;
  exitcode : option Z;
  seconds : option Z;
  process : option string;
}.

#[global] Instance SvStat_eq_dec : EqDecision SvStat.
Proof. solve_decision. Defined.

(** [result._replace(state=s)] *)
Definition replace_state (s : string) (r : SvStat) : SvStat :=
  {| state := s; pid := pid r; exitcode := exitcode r;
     seconds := seconds r; process := process r |}.

(** Modelled from the spec: the constant [SvStat.UNSUPERVISED] of the
    daemontools module, the state the spec calls "unsupervised". *)
Definition UNSUPERVISED : string := "unsupervised".

(** Modelled from the spec: what the status query reports for a directory no
    supervisor answers for. *)
Definition unsupervised_status : SvStat :=
  mkSvStat UNSUPERVISED None None None None.

Record Service := mkService {
  path : pypath;
  scratch_dir : pypath;
  default_timeout : Z;
}.

Definition name (self : Service) : string := basename (path self).
Definition ready_script (self : Service) : pypath := join (path self) "ready".
Definition notification_fd (self : Service) : pypath :=
  join (path self) "notification-fd".

(** Entries of the file system.  A symbolic link keeps its target. *)
Inductive node :=
  | File (content : string)
  | Dir
  | Symlink (target : pypath).

#[global] Instance node_eq_dec : EqDecision node.
Proof. solve_decision. Defined.

Inductive errno := ENOENT | EEXIST | EISDIR | ENOTDIR | EBADF | ELOOP.

#[global] Instance errno_eq_dec : EqDecision errno.
Proof. solve_decision. Defined.

(** The exceptions the module raises or lets through. *)
Inductive exn :=
  | NoSuchService (service_name : string)
  | NotReady (status : SvStat)
  | Locked
  | Impossible (msg : string)
  | ValueError
  | EnvError (e : errno)
  | CalledProcessError.

#[global] Instance exn_eq_dec : EqDecision exn.
Proof. solve_decision. Defined.

(** What leaves the process. *)
Inductive event :=
  | EvSvstat (service : pypath)
  | EvSvc (args : list string)
  | EvAcquire (service : string)
  | EvClose (fd : Z)
  | EvRunaway (service : string)
  | EvPopen (argv : list string) (out : Z) (env : gmap string string)
  | EvExec (argv : list string) (env : gmap string string).

#[global] Instance event_eq_dec : EqDecision event.
Proof. solve_decision. Defined.

(** ** The state *)

(** The file system and the descriptor table of the process. *)
Record Files := mkFiles {
  fs : gmap pypath node;
  fds : gset Z;
}.

Record World := mkWorld {
  w_env : gmap string string;     (* os.environ *)
  w_files : Files;
  w_cwd : pypath;                 (* working directory *)
  w_status : gmap pypath SvStat;  (* what each supervisor reports *)
  w_alive : gset string;          (* services whose supervisor answers *)
  w_contention : list bool;       (* outcome of the coming lock attempts:
                                     true when another process holds it *)
  w_trace : list event;
}.

Definition w_fs (w : World) : gmap pypath node := fs (w_files w).
Definition w_fds (w : World) : gset Z := fds (w_files w).

Definition set_fs (f : gmap pypath node -> gmap pypath node) (d : Files) :=
  mkFiles (f (fs d)) (fds d).
Definition set_fds (f : gset Z -> gset Z) (d : Files) :=
  mkFiles (fs d) (f (fds d)).

Definition set_env (f : gmap string string -> gmap string string) (w : World) :=
  mkWorld (f (w_env w)) (w_files w) (w_cwd w) (w_status w)
          (w_alive w) (w_contention w) (w_trace w).
Definition set_files (d : Files) (w : World) :=
  mkWorld (w_env w) d (w_cwd w) (w_status w)
          (w_alive w) (w_contention w) (w_trace w).
Definition set_cwd (c : pypath) (w : World) :=
  mkWorld (w_env w) (w_files w) c (w_status w)
          (w_alive w) (w_contention w) (w_trace w).
Definition set_status (st : gmap pypath SvStat) (w : World) :=
  mkWorld (w_env w) (w_files w) (w_cwd w) st
          (w_alive w) (w_contention w) (w_trace w).
Definition set_alive (a : gset string) (w : World) :=
  mkWorld (w_env w) (w_files w) (w_cwd w) (w_status w)
          a (w_contention w) (w_trace w).
Definition set_contention (l : list bool) (w : World) :=
  mkWorld (w_env w) (w_files w) (w_cwd w) (w_status w)
          (w_alive w) l (w_trace w).
Definition emit (e : event) (w : World) :=
  mkWorld (w_env w) (w_files w) (w_cwd w) (w_status w)
          (w_alive w) (w_contention w) (w_trace w ++ [e]).

(** ** The monad: state passing with exceptions *)

(** [Replaced]: the process image was replaced (exec); nothing of this
    program runs afterwards, not even [finally] blocks. *)
Inductive Result (A : Type) :=
  | Ok (a : A)
  | Raise (e : exn)
  | Replaced.
Arguments Ok {A} a.
Arguments Raise {A} e.
Arguments Replaced {A}.

Definition ST (S A : Type) : Type := S -> Result A * S.

(** Code that touches files and descriptors only runs in [D]; the rest of
    the module runs in [M]. *)
Abbreviation D := (ST Files).
Abbreviation M := (ST World).

Definition ret {S A} (a : A) : ST S A := fun s => (Ok a, s).
Definition raise {S A} (e : exn) : ST S A := fun s => (Raise e, s).

Definition bind {S A B} (m : ST S A) (k : A -> ST S B) : ST S B :=
  fun s =>
    match m s with
    | (Ok a, s') => k a s'
    | (Raise e, s') => (Raise e, s')
    | (Replaced, s') => (Replaced, s')
    end.

Notation "x <- m ;; k" := (bind m (fun x => k))
  (at level 100, m at next level, right associativity).
Notation "m ;;; k" := (bind m (fun _ => k))
  (at level 100, right associativity).

(** [try: m except e: h e] *)
Definition try_except {S A} (m : ST S A) (h : exn -> ST S A) : ST S A :=
  fun s =>
    match m s with
    | (Raise e, s') => h e s'
    | r => r
    end.

(** [try: m finally: f].  An exception of [f] replaces the outcome of [m]. *)
Definition try_finally {S A} (m : ST S A) (f : ST S unit) : ST S A :=
  fun s =>
    match m s with
    | (Ok a, s') =>
        match f s' with
        | (Ok _, s'') => (Ok a, s'')
        | (Raise e, s'') => (Raise e, s'')
        | (Replaced, s'') => (Replaced, s'')
        end
    | (Raise e, s') =>
        match f s' with
        | (Ok _, s'') => (Raise e, s'')
        | (Raise e', s'') => (Raise e', s'')
        | (Replaced, s'') => (Replaced, s'')
        end
    | (Replaced, s') => (Replaced, s')
    end.

Definition get {S A} (f : S -> A) : ST S A := fun s => (Ok (f s), s).
Definition modify {S} (f : S -> S) : ST S unit := fun s => (Ok tt, f s).
Definition tell (e : event) : M unit := modify (emit e).

(** File code run by the process. *)
Definition on_files {A} (m : D A) : M A :=
  fun w =>
    match m (w_files w) with
    | (r, d) => (r, set_files d w)
    end.

(** ** The operating system and py.path, as far as the module uses them *)

(** The root is a directory; every other entry is what the map holds. *)
Definition lstat (fs : gmap pypath node) (p : pypath) : option node :=
  match p with
  | [] => Some Dir
  | _ => fs !! p
  end.

(** Links are followed in the last component, at most [n] of them in a row. *)
Fixpoint resolve (n : nat) (fs : gmap pypath node) (p : pypath)
  : option pypath :=
  match lstat fs p with
  | Some (Symlink t) =>
      match n with
      | O => None
      | S n' => resolve n' fs t
      end
  | _ => Some p
  end.

Definition MAXSYMLINKS : nat := 40.

Definition stat (fs : gmap pypath node) (p : pypath) : option node :=
  q ← resolve MAXSYMLINKS fs p; lstat fs q.

(** [p.check(dir=True)], [p.check(file=1)], [p.exists()] *)
Definition check_dir (fs : gmap pypath node) (p : pypath) : bool :=
  bool_decide (stat fs p = Some Dir).
Definition check_file (fs : gmap pypath node) (p : pypath) : bool :=
  match stat fs p with
  | Some (File _) => true
  | _ => false
  end.
Definition exists_ (fs : gmap pypath node) (p : pypath) : bool :=
  bool_decide (is_Some (stat fs p)).

(** Descriptors: [open] hands out the lowest number that is free. *)
Fixpoint lowest_free_from (fuel : nat) (s : gset Z) (n : Z) : Z :=
  match fuel with
  | O => n
  | S f => if decide (n ∈ s) then lowest_free_from f s (n + 1) else n
  end.

Definition lowest_free (s : gset Z) : Z := lowest_free_from (size s) s 0.

Definition alloc_fd : D Z :=
  fun d => let fd := lowest_free (fds d) in
           (Ok fd, set_fds (fun s => {[fd]} ∪ s) d).

(** An open file: its descriptor and the entry it writes to. *)
Record file := mkFile { fileno : Z; target_of : pypath }.

(** [p.open('w')] (truncating) and [p.open('a')] (appending) *)
Definition open_ (truncate : bool) (p : pypath) : D file :=
  fun d =>
    match resolve MAXSYMLINKS (fs d) p with
    | None => (Raise (EnvError ELOOP), d)
    | Some q =>
        match lstat (fs d) q with
        | Some (File c) =>
            bind alloc_fd (fun fd => ret (mkFile fd q))
              (set_fs <[q := File (if truncate then "" else c)]> d)
        | Some _ => (Raise (EnvError EISDIR), d)
        | None =>
            match stat (fs d) (dirpath q) with
            | Some Dir =>
                bind alloc_fd (fun fd => ret (mkFile fd q))
                  (set_fs <[q := File ""]> d)
            | Some _ => (Raise (EnvError ENOTDIR), d)
            | None => (Raise (EnvError ENOENT), d)
            end
        end
    end.

Definition append_content (s : string) (n : node) : node :=
  match n with
  | File c => File (c +:+ s)
  | _ => n
  end.

(** [f.write(s)] and [f.close()] *)
Definition write (f : file) (s : string) : D unit :=
  modify (set_fs (alter (append_content s) (target_of f))).

Definition close (f : file) : D unit :=
  modify (set_fds (fun fds => fds ∖ {[fileno f]})).

(** [os.close(fd)] on a bare descriptor *)
Definition close_fd (fd : Z) : D unit :=
  fun d =>
    if decide (fd ∈ fds d)
    then (Ok tt, set_fds (fun fds => fds ∖ {[fd]}) d)
    else (Raise (EnvError EBADF), d).

Definition os_close (fd : Z) : M unit :=
  tell (EvClose fd) ;;;
  on_files (close_fd fd).

(** [os.mkdir] *)
Definition mkdir (p : pypath) : D unit :=
  fun d =>
    match lstat (fs d) p with
    | Some _ => (Raise (EnvError EEXIST), d)
    | None =>
        match stat (fs d) (dirpath p) with
        | Some Dir => (Ok tt, set_fs <[p := Dir]> d)
        | Some _ => (Raise (EnvError ENOTDIR), d)
        | None => (Raise (EnvError ENOENT), d)
        end
    end.

(** [p._ensuredirs()]: make the parent first when it is no directory, then
    the directory itself; a directory that is already there is kept. *)
Fixpoint ensuredirs_from (fuel : nat) (p : pypath) : D unit :=
  match fuel with
  | O => ret tt
  | S n =>
      let parent := dirpath p in
      if decide (parent = p) then ret tt
      else
        parent_is_dir <- get (fun d => check_dir (fs d) parent) ;;
        (if parent_is_dir : bool then ret tt else ensuredirs_from n parent) ;;;
        is_dir <- get (fun d => check_dir (fs d) p) ;;
        if is_dir : bool then ret tt
        else
          try_except (mkdir p)
            (fun e =>
               match e with
               | EnvError EEXIST =>
                   still <- get (fun d => check_dir (fs d) p) ;;
                   if still : bool then ret tt else raise e
               | _ => raise e
               end)
  end.

Definition _ensuredirs (p : pypath) : D unit := ensuredirs_from (length p) p.

(** [p.ensure(name)]: the file [p/name], created empty when it is missing *)
Definition ensure (p : pypath) (name : string) : D unit :=
  let q := join p name in
  _ensuredirs (dirpath q) ;;;
  is_file <- get (fun d => check_file (fs d) q) ;;
  if is_file : bool then ret tt
  else f <- open_ true q ;; close f.

(** [p.ensure_dir()] *)
Definition ensure_dir (p : pypath) : D unit := _ensuredirs p.

(** [p.remove()]: a directory (not a link to one) goes with all below it,
    anything else is unlinked; a missing entry is ENOENT. *)
Definition remove (p : pypath) : D unit :=
  fun d =>
    match lstat (fs d) p with
    | Some Dir =>
        (Ok tt, set_fs (filter (fun kv => ¬ p `prefix_of` kv.1)) d)
    | Some _ => (Ok tt, set_fs (delete p) d)
    | None => (Raise (EnvError ENOENT), d)
    end.

(** [check_call(('ln', '-sfn', '--', target, link))]: with [-n] a link name
    that is a link itself is replaced, not entered; a link name that is a
    real directory gets the link inside it, named after the target; [-f]
    replaces what is there, except a directory. *)
Definition ln_sfn (target link : pypath) : D unit :=
  fun d =>
    let dest :=
      match lstat (fs d) link with
      | Some Dir => join link (basename target)
      | _ => link
      end in
    match lstat (fs d) dest with
    | Some Dir => (Raise CalledProcessError, d)
    | _ =>
        if check_dir (fs d) (dirpath dest)
        then (Ok tt, set_fs <[dest := Symlink target]> d)
        else (Raise CalledProcessError, d)
    end.

(** [with p.as_cwd(): body].  The module enters only directories it has
    just found to exist and returns to where it was. *)
Definition as_cwd {A} (p : pypath) (body : M A) : M A :=
  old <- get w_cwd ;;
  modify (set_cwd p) ;;;
  try_finally body (modify (set_cwd old)).

(** [os.environ.pop(key, None)] *)
Definition environ_pop (key : string) : M (option string) :=
  fun w => (Ok (w_env w !! key), set_env (delete key) w).

(** ** Builtins *)

Definition is_space (a : ascii) : bool :=
  let n := N_of_ascii a in
  orb (N.eqb n 32) (andb (N.leb 9 n) (N.leb n 13)).

Fixpoint lstrip (s : string) : string :=
  match s with
  | String a s' => if is_space a then lstrip s' else s
  | EmptyString => s
  end.

Fixpoint rstrip (s : string) : string :=
  match s with
  | String a s' =>
      match rstrip s' with
      | EmptyString => if is_space a then EmptyString else String a EmptyString
      | r => String a r
      end
  | EmptyString => s
  end.

Definition digit_val (a : ascii) : option Z :=
  let n := Z.of_N (N_of_ascii a) in
  if decide (48 ≤ n ≤ 57) then Some (n - 48) else None.

Fixpoint digits_val (acc : Z) (s : string) : option Z :=
  match s with
  | EmptyString => Some acc
  | String a s' => d ← digit_val a; digits_val (10 * acc + d) s'
  end.

Definition unsigned_val (s : string) : option Z :=
  match s with
  | EmptyString => None
  | _ => digits_val 0 s
  end.

(** [int(s)] on a string, for decimal numerals written with ASCII digits:
    blanks around the numeral are dropped, one sign is allowed, at least one
    digit is needed.  [None] is ValueError.  Numerals that only some versions
    of Python read (underscores between digits, digits and blanks outside
    ASCII) are not covered: the properties use [py_int] where it returns a
    number, or on strings that no version reads as one. *)
Definition py_int (s : string) : option Z :=
  match rstrip (lstrip s) with
  | String "+" r => unsigned_val r
  | String "-" r => Z.opp <$> unsigned_val r
  | r => unsigned_val r
  end.

(** [str(n)] on an integer *)
Definition py_str (n : Z) : string := pretty n.

(** The truth value of [os.environ.pop(key, None)]: a non-empty string. *)
Definition truthy (o : option string) : bool :=
  match o with
  | Some (String _ _) => true
  | _ => false
  end.

(** ** Collaborators of the module (daemontools, flock, functions) *)

(** Modelled from the spec: daemontools.svstat, the status query, "returning
    (state, sub-process, exitcode, seconds-in-state)" for the service named
    relative to the working directory; read-only. *)
Definition daemontools_svstat (service_name : string) : M SvStat :=
  fun w =>
    let p := from_cwd (w_cwd w) service_name in
    (Ok (default unsupervised_status (w_status w !! p)), emit (EvSvstat p) w).

(** Modelled from the spec: daemontools.svok, "a lightweight existence probe
    against the supervisor's control channel: true if a live supervisor
    answers, false otherwise", "cheap and side-effect-free". *)
Definition svok (service : string) : M bool :=
  get (fun w => bool_decide (service ∈ w_alive w)).

(** Modelled from the spec: daemontools.svc, which sends a directive
    ("bring up", "bring down and terminate") addressed by service path. *)
Definition svc (args : list string) : M unit := tell (EvSvc args).

(** Modelled from the spec: functions.show_runaway_processes, which reports
    "diagnostic information about the processes still occupying the service
    (best-effort)". *)
Definition show_runaway_processes (service : string) : M unit :=
  tell (EvRunaway service).

(** Modelled from the spec: functions.exec_, which replaces "the current
    process image with the supervision daemon". *)
Definition exec_ {A} (argv : list string) (env : gmap string string) : M A :=
  fun w => (Replaced, emit (EvExec argv env) w).

(** Modelled from the spec: daemontools.prepend_timestamps_to, "a
    passthrough transform", "consumed as an opaque writable sink". *)
Definition prepend_timestamps_to (log : file) : M file := ret log.

(** [Popen(argv, stdout=out, stderr=out, env=env, close_fds=False)] *)
Definition Popen (argv : list string) (out : Z) (env : gmap string string)
  : M unit :=
  tell (EvPopen argv out env).

(** Modelled from the spec: flock.flock, the scoped "OS-level advisory
    exclusive lock keyed by the service directory path, represented by a held
    file-descriptor-like handle"; the acquisition does not block and "treats
    already locked as Locked"; "Release: close the lock handle".  Whether
    another process holds the lock at an attempt is the world's to say. *)
Definition flock_flock {A} (service : string) (body : Z -> M A) : M A :=
  tell (EvAcquire service) ;;;
  busy <- (fun w =>
             match w_contention w with
             | [] => (Ok false, w)
             | b :: l => (Ok b, set_contention l w)
             end) ;;
  if busy : bool then raise Locked
  else
    lock <- on_files alloc_fd ;;
    try_finally (body lock) (os_close lock).

(** ** class Service *)

Definition newline : string := String (ascii_of_nat 10) EmptyString.

Definition PGCTL_SERVICE_LOCK : string := "PGCTL_SERVICE_LOCK".

(** The mapping [supervise_env] returns: a frozendict offers lookups only. *)
Record frozendict := Frozen { items : gmap string string }.

Definition assert_exists (self : Service) : D unit :=
  is_dir <- get (fun d => check_dir (fs d) (path self)) ;;
  if is_dir : bool then ret tt else raise (NoSuchService (name self)).

Definition svstat (self : Service) : M SvStat :=
  on_files (assert_exists self) ;;;
  result <- as_cwd (dirpath (path self)) (daemontools_svstat (name self)) ;;
  notified <- get (fun w => exists_ (w_fs w) (notification_fd self)) ;;
  if negb notified then
    if (bool_decide (state result = "up")
        && bool_decide (process result = None))
       || (bool_decide (process result = Some "starting")
           && bool_decide (exitcode result = Some 0)
           && bool_decide (seconds result = Some 0))
    then ret (replace_state "ready" result)
    else ret result
  else ret result.

Definition stop (self : Service) : M unit :=
  on_files (assert_exists self) ;;;
  svc ["-dx"; strpath (path self)].

Definition assert_ready (self : Service) : M unit :=
  status <- svstat self ;;
  if decide (state status ≠ "ready") then raise (NotReady status)
  else ret tt.

Definition ensure_logs (self : Service) : D unit :=
  ensure (path self) "log".

Definition ensure_directory_structure (self : Service) : D unit :=
  assert_exists self ;;;
  ensure_logs self ;;;
  ensure (path self) "nosetsid" ;;;
  try_except (remove (join (path self) "down"))
    (fun e =>
       match e with
       | EnvError ENOENT => ret tt
       | _ => raise e
       end) ;;;
  has_ready <- get (fun d => exists_ (fs d) (ready_script self)) ;;
  (if has_ready : bool then
     f <- open_ true (notification_fd self) ;;
     try_finally (write f (py_str (fileno f) +:+ newline)) (close f)
   else ret tt) ;;;
  let supervise_in_scratch := join (scratch_dir self) "supervise" in
  ensure_dir supervise_in_scratch ;;;
  ln_sfn supervise_in_scratch (join (path self) "supervise").

(** [with self.flock() as lock: body lock] *)
Definition flock {A} (self : Service) (body : Z -> M A) : M A :=
  lock <- environ_pop PGCTL_SERVICE_LOCK ;;
  if truthy lock then
    match py_int (default "" lock) with
    | None => raise ValueError
    | Some lock => try_finally (body lock) (os_close lock)
    end
  else
    flock_flock (strpath (path self))
      (fun lock =>
         on_files (ensure_directory_structure self) ;;;
         as_cwd (path self) (body lock)).

(** The loop of [assert_stopped], [racelimit] rounds being left.  The body
    of the lock scope returns from [assert_stopped] ([false]: nothing was
    caught); a [Locked] is caught and reported ([true]) and the loop goes
    on; any other exception goes through. *)
Fixpoint race (self : Service) (racelimit : nat) : M unit :=
  match racelimit with
  | O => raise (Impossible "lost the race 10 times in a row")
  | S racelimit' =>
      caught <- try_except
                  (flock self (fun _ => ret false))
                  (fun e =>
                     match e with
                     | Locked =>
                         show_runaway_processes (strpath (path self)) ;;;
                         ret true
                     | _ => raise e
                     end) ;;
      if caught : bool then race self racelimit' else ret tt
  end.

Definition assert_stopped (self : Service) : M unit :=
  status <- svstat self ;;
  if decide (state status ≠ UNSUPERVISED) then raise (NotReady status)
  else race self 10.

Definition supervise_env (self : Service) (lock : Z) (debug : bool)
  : M frozendict :=
  environ <- get w_env ;;
  let env :=
    <[PGCTL_SERVICE_LOCK := py_str lock]>
      (<["PGCTL_SERVICE" := strpath (path self)]>
         (<["PGCTL_SCRATCH" := strpath (scratch_dir self)]> environ)) in
  ret (Frozen (if debug then <["PGCTL_DEBUG" := "true"]> env
               else delete "PGCTL_DEBUG" env)).

Definition idempotent_supervise (wrapped : Service -> M unit)
  : Service -> M unit :=
  fun self =>
    alive <- svok (strpath (path self)) ;;
    if alive then ret tt else wrapped self.

Definition supervise_argv (self : Service) : list string :=
  ["s6-supervise"; strpath (path self)].

(** The supervisor's standard input is the null device. *)
Definition background : Service -> M unit :=
  idempotent_supervise
    (fun self =>
       flock self
         (fun lock =>
            log <- on_files (open_ false (join (path self) "log")) ;;
            log <- prepend_timestamps_to log ;;
            env <- supervise_env self lock false ;;
            Popen (supervise_argv self) (fileno log) (items env) ;;;
            on_files (close log))).

Definition foreground : Service -> M unit :=
  idempotent_supervise
    (fun self =>
       flock self
         (fun lock =>
            env <- supervise_env self lock true ;;
            exec_ (supervise_argv self) (items env))).

Definition start (self : Service) : M unit :=
  background self ;;;
  svc ["-u"; strpath (path self)].

(** ** Notions the properties are stated with *)

(** The supervisor's answer for the service: the status the world holds for
    the service's name, looked up from its parent directory. *)
Definition raw_status (self : Service) (w : World) : SvStat :=
  default unsupervised_status
    (w_status w !! from_cwd (dirpath (path self)) (name self)).

(** The condition under which a service without notification counts as
    ready. *)
Definition up_or_restarting_cleanly (r : SvStat) : Prop :=
  (state r = "up" ∧ process r = None)
  ∨ (process r = Some "starting" ∧ exitcode r = Some 0 ∧ seconds r = Some 0).

#[global] Instance up_or_restarting_cleanly_dec r :
  Decision (up_or_restarting_cleanly r).
Proof. unfold up_or_restarting_cleanly. apply _. Defined.

(** Counting what was attempted: lock acquisitions and status queries. *)
Definition is_acquire (e : event) : bool :=
  match e with
  | EvAcquire _ => true
  | _ => false
  end.

Definition is_svstat (e : event) : bool :=
  match e with
  | EvSvstat _ => true
  | _ => false
  end.

Definition is_launch (e : event) : bool :=
  match e with
  | EvPopen _ _ _ | EvExec _ _ => true
  | _ => false
  end.

Definition is_runaway (e : event) : bool :=
  match e with
  | EvRunaway _ => true
  | _ => false
  end.

Definition count (f : event -> bool) (t : list event) : nat :=
  length (List.filter f t).

Definition attempts (t : list event) : nat := count is_acquire t.
Definition queries (t : list event) : nat := count is_svstat t.

(** File code raises file errors only: no [Locked], no exec. *)
Definition tame_result {A} (r : Result A) : Prop :=
  match r with
  | Ok _ => True
  | Raise (EnvError _) | Raise (NoSuchService _) | Raise CalledProcessError =>
      True
  | _ => False
  end.

Definition tame {A} (m : D A) : Prop := ∀ d, tame_result (m d).1.

(** File code that leaves the descriptor table as it found it. *)
Definition keeps_fds {A} (m : D A) : Prop := ∀ d, fds (m d).2 = fds d.

(** The world once a lock attempt on [service] was refused, and once it
    was granted (the lock's descriptor being the lowest free one). *)
Definition refused (service : string) (w : World) : World :=
  set_contention (tail (w_contention w)) (emit (EvAcquire service) w).

Definition granted (service : string) (w : World) : World :=
  set_files (set_fds (fun s => {[lowest_free (w_fds w)]} ∪ s) (w_files w))
    (refused service w).

(** The world once [os.close(fd)] was called. *)
Definition closed (fd : Z) (w : World) : World :=
  set_files (set_fds (fun s => s ∖ {[fd]}) (w_files w)) (emit (EvClose fd) w).

(** The environment once the lock entry was popped. *)
Definition popped (w : World) : World :=
  set_env (delete PGCTL_SERVICE_LOCK) w.

(** Entries that are no symbolic links, and the paths the directory
    structure is ensured through: the components of the service path and of
    the scratch supervise path, and the entries log, nosetsid, ready and
    notification-fd of the service directory. *)
Definition is_link (o : option node) : bool :=
  match o with
  | Some (Symlink _) => true
  | _ => false
  end.

Definition plain (fs : gmap pypath node) (q : pypath) : Prop :=
  is_link (lstat fs q) = false.

Fixpoint prefixes (p : pypath) : list pypath :=
  match p with
  | [] => [[]]
  | c :: p' => [] :: (cons c <$> prefixes p')
  end.

Definition touched (self : Service) : list pypath :=
  prefixes (path self)
  ++ prefixes (join (scratch_dir self) "supervise")
  ++ [join (path self) "log"; join (path self) "nosetsid";
      ready_script self; notification_fd self].

Definition physical (self : Service) (d : Files) : Prop :=
  Forall (plain (fs d)) (touched self).

(** The scratch supervise directory is not the service directory, nor
    inside it. *)
Definition scratch_outside (self : Service) : Prop :=
  ¬ path self `prefix_of` join (scratch_dir self) "supervise".

(** [fs'] is [fs] with directories added on the way to [p]. *)
Definition grows (p : pypath) (fs fs' : gmap pypath node) : Prop :=
  ∀ q, lstat fs' q = lstat fs q
       ∨ (q `prefix_of` p ∧ lstat fs q = None ∧ lstat fs' q = Some Dir).

(** [fs'] is [fs] with entries that are no links added at paths in [S]. *)
Definition adds (S : pypath → Prop) (fs fs' : gmap pypath node) : Prop :=
  ∀ q, lstat fs' q = lstat fs q
       ∨ (S q ∧ lstat fs q = None ∧ is_link (lstat fs' q) = false).

(** The layout [ensure_directory_structure] leaves: the service directory
    and its parent, the files log and nosetsid, no down entry, the
    notification-fd file holding the descriptor number when there is a ready
    script, the scratch supervise directory, and the supervise link to it
    (inside supervise when that is a real directory). *)
Definition settled (self : Service) (d : Files) : Prop :=
  let supervise_in_scratch := join (scratch_dir self) "supervise" in
  let link := join (path self) "supervise" in
  lstat (fs d) (path self) = Some Dir
  ∧ lstat (fs d) (dirpath (path self)) = Some Dir
  ∧ (∃ content, lstat (fs d) (join (path self) "log") = Some (File content))
  ∧ (∃ content,
       lstat (fs d) (join (path self) "nosetsid") = Some (File content))
  ∧ lstat (fs d) (join (path self) "down") = None
  ∧ (exists_ (fs d) (ready_script self) = true →
     lstat (fs d) (notification_fd self)
     = Some (File (py_str (lowest_free (fds d)) +:+ newline)))
  ∧ lstat (fs d) supervise_in_scratch = Some Dir
  ∧ lstat (fs d) (dirpath supervise_in_scratch) = Some Dir
  ∧ ((lstat (fs d) link = Some Dir
      ∧ lstat (fs d) (join link "supervise")
        = Some (Symlink supervise_in_scratch))
     ∨ lstat (fs d) link = Some (Symlink supervise_in_scratch)).

(** Strings of decimal digits. *)
Fixpoint all_digits (s : string) : Prop :=
  match s with
  | EmptyString => True
  | String a r => is_Some (digit_val a) ∧ all_digits r
  end.

(** The entries visited when links are followed from [p], at most [n] of
    them in a row. *)
Fixpoint chain (n : nat) (fs : gmap pypath node) (p : pypath)
  : list pypath :=
  p :: match lstat fs p with
       | Some (Symlink t) =>
           match n with
           | O => []
           | S n' => chain n' fs t
           end
       | _ => []
       end.

(** What a run removes, rewrites or replaces: the down entry and what is
    below it, the notification-fd file, and the supervise link (in the
    service directory, or inside supervise when that is a real directory). *)
Definition volatile (self : Service) (q : pypath) : Prop :=
  join (path self) "down" `prefix_of` q
  ∨ q = notification_fd self
  ∨ q = join (path self) "supervise"
  ∨ q = join (join (path self) "supervise") "supervise".

#[global] Instance volatile_dec self q : Decision (volatile self q).
Proof. unfold volatile. apply _. Defined.

(** An entry the run looks at is steady when, if it is a link, the link
    leads to something that exists, and following it visits nothing a run
    removes, rewrites or replaces. *)
Definition steady (self : Service) (fs : gmap pypath node) (e : pypath)
  : Prop :=
  (is_link (lstat fs e) = true → is_Some (stat fs e))
  ∧ Forall (λ q, ¬ volatile self q) (chain MAXSYMLINKS fs e).

(** The states on which a second run repeats the first: the components of
    the service path and of the scratch supervise path, and the
    notification-fd entry, are no links; log, nosetsid and ready are steady;
    the scratch supervise directory lies neither under the down entry nor
    under a ready entry that is not there. *)
Definition orderly (self : Service) (d : Files) : Prop :=
  Forall (plain (fs d))
    (prefixes (path self) ++ prefixes (join (scratch_dir self) "supervise")
     ++ [notification_fd self])
  ∧ Forall (steady self (fs d))
      [join (path self) "log"; join (path self) "nosetsid";
       ready_script self]
  ∧ ¬ join (path self) "down"
      `prefix_of` join (scratch_dir self) "supervise"
  ∧ (ready_script self `prefix_of` join (scratch_dir self) "supervise" →
     lstat (fs d) (ready_script self) ≠ None).


(** Characters that occur in no numeral [int] accepts, in any version of
    Python: the ASCII characters other than digits, blanks (9 to 13, 28 to
    32), the two signs and the underscore. *)
Definition no_numeral_char (a : ascii) : bool :=
  let n := N_of_ascii a in
  (n <? 128)%N
  && negb ((48 <=? n)%N && (n <=? 57)%N)
  && negb ((9 <=? n)%N && (n <=? 13)%N)
  && negb ((28 <=? n)%N && (n <=? 32)%N)
  && negb ((n =? 43)%N || (n =? 45)%N || (n =? 95)%N).

Fixpoint has_char (f : ascii → bool) (s : string) : bool :=
  match s with
  | EmptyString => false
  | String a r => f a || has_char f r
  end.

(** ** Sample data *)

Definition demo : Service := mkService ["pg"; "web"] ["run"; "pg"; "web"] 2.

Definition demo_fs : gmap pypath node :=
  <[["pg"; "web"] := Dir]> (<[["pg"] := Dir]> ∅).

(** A process with the three standard descriptors open, in the service's
    parent directory, with no supervisor running. *)
Definition demo_files : Files := mkFiles demo_fs {[0; 1; 2]}.

Definition demo_world : World :=
  mkWorld (<["HOME" := "/home/dev"]> ∅) demo_files ["pg"] ∅ ∅ [] [].

Definition restarting : SvStat :=
  mkSvStat "up" None (Some 0) (Some 0) (Some "starting").

(** A child process that inherited descriptor 2 as the service lock. *)
Definition handoff_world : World :=
  set_env <[PGCTL_SERVICE_LOCK := "2"]> demo_world.

(** A service whose scratch directory is its own ready entry. *)
Definition inward : Service :=
  mkService ["pg"; "web"] ["pg"; "web"; "ready"] 2.




(** A service directory whose log is a link into its down directory. *)
Definition log_into_down_files : Files :=
  mkFiles
    (<[["pg"; "web"; "log"] := Symlink ["pg"; "web"; "down"; "log"]]>
       (<[["pg"; "web"; "down"] := Dir]> demo_fs))
    {[0; 1; 2]}.

(** A world in which the service directory is missing. *)
Definition bare_world : World :=
  set_files (mkFiles (<[["pg"] := Dir]> ∅) {[0; 1; 2]}) demo_world.

Definition up_status : SvStat := mkSvStat "up" (Some 4242) None (Some 7) None.

(** A child process whose lock entry is no number. *)
Definition garbled_world : World :=
  set_env <[PGCTL_SERVICE_LOCK := "lock"]> demo_world.

(** A service directory whose log entry is a directory. *)
Definition log_dir_files : Files :=
  mkFiles (<[["pg"; "web"; "log"] := Dir]> demo_fs) {[0; 1; 2]}.

(** A service directory whose log already has content. *)
Definition logged_files : Files :=
  mkFiles (<[["pg"; "web"; "log"] := File "started"]> demo_fs) {[0; 1; 2]}.

(** * Properties *)

(** Unfolds the monad and the world's accessors, and computes through them. *)
Ltac run :=
  cbv beta iota zeta delta
    [bind ret raise get modify tell try_except try_finally on_files
     emit set_env set_files set_cwd set_contention set_status set_alive
     w_fs w_fds];
  cbn [w_env w_files w_cwd w_status w_alive w_contention w_trace fst snd].

(** ** Status classification *)

Lemma dirpath_join p c : dirpath (join p c) = p.
Proof. apply removelast_last. Qed.

Lemma basename_join p c : basename (join p c) = c.
Proof. apply last_last. Qed.

(** The query is addressed to the service's own directory. *)
Lemma from_cwd_dirpath_basename p c :
  c ≠ "" → from_cwd (dirpath (join p c)) (basename (join p c)) = join p c.
Proof.
  intros Hc. rewrite dirpath_join, basename_join.
  unfold from_cwd. by destruct (decide (c = "")).
Qed.

(** What [svstat] does once the service directory is there. *)
Lemma svstat_existing self w :
  check_dir (w_fs w) (path self) = true →
  svstat self w =
    (Ok (if negb (exists_ (w_fs w) (notification_fd self))
         then if decide (up_or_restarting_cleanly (raw_status self w))
              then replace_state "ready" (raw_status self w)
              else raw_status self w
         else raw_status self w),
     emit (EvSvstat (from_cwd (dirpath (path self)) (name self))) w).
Proof.
  unfold raw_status, svstat, assert_exists, as_cwd, daemontools_svstat.
  run. intros ->. run.
  set (raw := default unsupervised_status _).
  destruct (exists_ (fs (w_files w)) (notification_fd self));
    cbn [negb]; [done|].
  destruct (decide (up_or_restarting_cleanly raw)) as [H|H].
  - destruct H as [[-> ->]|(-> & -> & ->)]; cbn.
    + done.
    + by rewrite orb_true_r.
  - unfold up_or_restarting_cleanly in H.
    repeat match goal with
           | |- context [bool_decide ?P] => destruct (bool_decide_reflect P)
           end; cbn; try done; exfalso; apply H; auto.
Qed.

(** C1: for a service whose notification-fd file does not exist, the status
    returned is the supervisor's raw status, with its state replaced by
    "ready" when (a) the raw state is "up" with no sub-process or (b) the
    sub-process is "starting" with exitcode 0 and 0 seconds: its state is
    "ready" and its pid, exitcode, seconds and sub-process are those of the
    raw status; in every other case it is the raw status unchanged. *)
Theorem svstat_without_notification self w :
  check_dir (w_fs w) (path self) = true →
  exists_ (w_fs w) (notification_fd self) = false →
  ∃ result w',
    svstat self w = (Ok result, w')
    ∧ (up_or_restarting_cleanly (raw_status self w) →
       result = mkSvStat "ready" (pid (raw_status self w))
                  (exitcode (raw_status self w)) (seconds (raw_status self w))
                  (process (raw_status self w)))
    ∧ (¬ up_or_restarting_cleanly (raw_status self w) →
       result = raw_status self w).
Proof.
  intros Hdir Hnot. eexists _, _. split.
  - by apply svstat_existing.
  - rewrite Hnot. cbn [negb].
    destruct (decide (up_or_restarting_cleanly (raw_status self w)));
      split; intros; done.
Qed.

(** C2: for a service whose notification-fd file exists, the status returned
    is the supervisor's raw status unchanged; the raw status
    (up, starting, 0, 0) keeps its sub-process "starting" and its state is
    not made "ready". *)
Theorem svstat_with_notification self w :
  check_dir (w_fs w) (path self) = true →
  exists_ (w_fs w) (notification_fd self) = true →
  ∃ w',
    svstat self w = (Ok (raw_status self w), w')
    ∧ (state (raw_status self w) = "up" →
       process (raw_status self w) = Some "starting" →
       exitcode (raw_status self w) = Some 0 →
       seconds (raw_status self w) = Some 0 →
       ∀ result w'', svstat self w = (Ok result, w'') →
         process result = Some "starting" ∧ state result ≠ "ready").
Proof.
  intros Hdir Hnot. eexists. split.
  - rewrite svstat_existing by done. by rewrite Hnot.
  - intros Hs Hp _ _ result w''.
    rewrite svstat_existing by done. rewrite Hnot. cbn [negb].
    intros [= <- _]. split; [done|]. by rewrite Hs.
Qed.

Lemma svstat_without_notification_witness :
  ∃ result w',
    svstat demo (set_status {[path demo := restarting]} demo_world)
    = (Ok result, w')
    ∧ result = mkSvStat "ready" None (Some 0) (Some 0) (Some "starting").
Proof.
  destruct (svstat_without_notification demo
              (set_status {[path demo := restarting]} demo_world))
    as (result & w' & Heq & Hready & _); [reflexivity | reflexivity |].
  exists result, w'. split; [exact Heq|].
  apply Hready. right. repeat split; reflexivity.
Defined.

Lemma svstat_with_notification_witness :
  ∃ w',
    svstat demo
      (set_files (set_fs <[notification_fd demo := File ""]> demo_files)
         (set_status {[path demo := restarting]} demo_world))
    = (Ok restarting, w').
Proof.
  destruct (svstat_with_notification demo
              (set_files
                 (set_fs <[notification_fd demo := File ""]> demo_files)
                 (set_status {[path demo := restarting]} demo_world)))
    as (w' & Heq & _); [reflexivity | reflexivity |].
  exists w'. exact Heq.
Defined.

(** ** stop *)

Lemma stop_eval self w :
  stop self w =
    if check_dir (w_fs w) (path self)
    then (Ok tt, emit (EvSvc ["-dx"; strpath (path self)]) w)
    else (Raise (NoSuchService (name self)), w).
Proof.
  destruct w. unfold stop, assert_exists, svc. run.
  by destruct (check_dir _ _).
Qed.

(** C6, as the code has it: [stop] first asserts that the service directory
    exists, raising NoSuchService and sending nothing otherwise, and only
    then sends the down-and-exit directive for the service path; it makes no
    status query. *)
Theorem stop_asserts_exists_then_directs self w :
  stop self w =
    (if check_dir (w_fs w) (path self)
     then (Ok tt, emit (EvSvc ["-dx"; strpath (path self)]) w)
     else (Raise (NoSuchService (name self)), w))
  ∧ queries (w_trace (stop self w).2) = queries (w_trace w).
Proof.
  split; [apply stop_eval|].
  rewrite stop_eval.
  destruct (check_dir (w_fs w) (path self)); [|done].
  destruct w; cbn. unfold queries, count.
  rewrite List.filter_app, length_app. cbn. lia.
Qed.

(** C6 as stated fails: on an existing service that is unsupervised, [stop]
    raises nothing and sends the directive. *)
Lemma stop_on_unsupervised_counterexample :
  (svstat demo demo_world).1 = Ok unsupervised_status
  ∧ stop demo demo_world
    = (Ok tt, emit (EvSvc ["-dx"; "/pg/web"]) demo_world).
Proof. split; reflexivity. Qed.

(** ** The launcher *)

Lemma idempotent_supervise_alive wrapped self w :
  strpath (path self) ∈ w_alive w →
  idempotent_supervise wrapped self w = (Ok tt, w).
Proof.
  intros Halive. unfold idempotent_supervise, svok. run.
  by rewrite bool_decide_eq_true_2.
Qed.

(** C7: when a live supervisor answers for the service path, [background]
    and [foreground] return successfully and leave the world as it was: no
    lock attempt, no launch, nothing in the trace; so does running them
    again. *)
Theorem launch_idempotent self w :
  strpath (path self) ∈ w_alive w →
  background self w = (Ok tt, w)
  ∧ foreground self w = (Ok tt, w)
  ∧ (background self ;;; background self) w = (Ok tt, w)
  ∧ (foreground self ;;; foreground self) w = (Ok tt, w)
  ∧ attempts (w_trace (background self w).2) = attempts (w_trace w)
  ∧ count is_launch (w_trace (background self w).2)
    = count is_launch (w_trace w)
  ∧ attempts (w_trace (foreground self w).2) = attempts (w_trace w)
  ∧ count is_launch (w_trace (foreground self w).2)
    = count is_launch (w_trace w).
Proof.
  intros Halive.
  assert (Hb : background self w = (Ok tt, w))
    by by apply idempotent_supervise_alive.
  assert (Hf : foreground self w = (Ok tt, w))
    by by apply idempotent_supervise_alive.
  assert (Hbind : ∀ m : M unit, m w = (Ok tt, w) → (m ;;; m) w = (Ok tt, w)).
  { intros m Hm. unfold bind. by rewrite Hm. }
  rewrite !Hbind by done. by rewrite Hb, Hf.
Qed.

Lemma launch_idempotent_witness :
  background demo (set_alive {["/pg/web"]} demo_world)
  = (Ok tt, set_alive {["/pg/web"]} demo_world)
  ∧ foreground demo (set_alive {["/pg/web"]} demo_world)
    = (Ok tt, set_alive {["/pg/web"]} demo_world).
Proof.
  destruct (launch_idempotent demo (set_alive {["/pg/web"]} demo_world))
    as (Hb & Hf & _).
  - vm_compute. reflexivity.
  - split; [exact Hb | exact Hf].
Defined.

(** ** str and int on descriptors *)

Lemma digit_val_pretty_N_char (x : N) :
  (x < 10)%N → digit_val (pretty_N_char x) = Some (Z.of_N x).
Proof.
  intros Hx.
  assert (x = 0 ∨ x = 1 ∨ x = 2 ∨ x = 3 ∨ x = 4 ∨ x = 5 ∨ x = 6 ∨ x = 7
          ∨ x = 8 ∨ x = 9)%N as Hcases by lia.
  repeat (destruct Hcases as [->|Hcases]; [reflexivity|]). by subst.
Qed.

Lemma digit_not_space a : is_Some (digit_val a) → is_space a = false.
Proof.
  destruct a as [[] [] [] [] [] [] [] []]; intros [x Hx];
    try reflexivity; by vm_compute in Hx.
Qed.

Lemma digit_not_sign a :
  is_Some (digit_val a) → a ≠ "+"%char ∧ a ≠ "-"%char.
Proof. intros [x Hx]. split; intros ->; by vm_compute in Hx. Qed.

Lemma all_digits_pretty_N_go x s : all_digits s → all_digits (pretty_N_go x s).
Proof.
  revert s. induction (N.lt_wf_0 x) as [x _ IH]; intros s Hs.
  assert (x = 0 ∨ 0 < x)%N as [->|Hpos] by lia; [done|].
  rewrite pretty_N_go_step by done. apply IH; [by apply N.div_lt|].
  split; [|done]. rewrite digit_val_pretty_N_char; [done|].
  by apply N.mod_lt.
Qed.

Lemma digits_val_pretty_N_go x s :
  digits_val 0 (pretty_N_go x s) = digits_val (Z.of_N x) s.
Proof.
  revert s. induction (N.lt_wf_0 x) as [x _ IH]; intros s.
  assert (x = 0 ∨ 0 < x)%N as [->|Hpos] by lia; [done|].
  rewrite pretty_N_go_step by done. rewrite IH by by apply N.div_lt.
  cbn [digits_val]. rewrite digit_val_pretty_N_char by by apply N.mod_lt.
  cbn. f_equal. rewrite (N.div_mod x 10) at 3 by done. lia.
Qed.

Lemma pretty_N_go_cons x a s : ∃ b r, pretty_N_go x (String a s) = String b r.
Proof.
  revert a s. induction (N.lt_wf_0 x) as [x _ IH]; intros a s.
  assert (x = 0 ∨ 0 < x)%N as [->|Hpos] by lia; [by eauto|].
  rewrite pretty_N_go_step by done. apply IH. by apply N.div_lt.
Qed.

Lemma lstrip_cons a s : is_space a = false → lstrip (String a s) = String a s.
Proof. intros Ha. cbn. by rewrite Ha. Qed.

Lemma lstrip_digits s : all_digits s → lstrip s = s.
Proof.
  destruct s as [|a s]; [done|]. intros [Ha _].
  by apply lstrip_cons, digit_not_space.
Qed.

Lemma rstrip_cons a s :
  is_space a = false → rstrip (String a s) = String a (rstrip s).
Proof. intros Ha. cbn. rewrite Ha. by destruct (rstrip s). Qed.

Lemma rstrip_digits s : all_digits s → rstrip s = s.
Proof.
  induction s as [|a s IH]; [done|]. intros [Ha Hs]. cbn.
  rewrite IH by done. rewrite digit_not_space by done. by destruct s.
Qed.

Lemma py_int_digits a s :
  all_digits (String a s) → py_int (String a s) = digits_val 0 (String a s).
Proof.
  intros Hd. unfold py_int. rewrite lstrip_digits, rstrip_digits by done.
  destruct Hd as [Ha _]. destruct (digit_not_sign a Ha) as [Hplus Hminus].
  destruct a as [[] [] [] [] [] [] [] []]; try done.
Qed.

Lemma py_int_positive p : py_int (pretty (Z.pos p)) = Some (Z.pos p).
Proof.
  unfold pretty, pretty_Z, pretty, pretty_positive, pretty, pretty_N.
  rewrite decide_False by done.
  assert (Hd : all_digits (pretty_N_go (N.pos p) "")).
  { by apply all_digits_pretty_N_go. }
  rewrite pretty_N_go_step in * by done.
  destruct (pretty_N_go_cons (N.pos p `div` 10)
              (pretty_N_char (N.pos p `mod` 10)) "") as (b & r & Heq).
  rewrite <- (pretty_N_go_step (N.pos p) "") in Heq by done.
  rewrite <- (pretty_N_go_step (N.pos p) "") in Hd by done.
  rewrite <- (pretty_N_go_step (N.pos p) "") by done.
  rewrite Heq in Hd. rewrite Heq. rewrite py_int_digits by done.
  rewrite <- Heq. by rewrite digits_val_pretty_N_go.
Qed.

(** [int(str(n)) == n] *)
Lemma py_int_py_str n : py_int (py_str n) = Some n.
Proof.
  unfold py_str. destruct n as [|p|p]; [done|apply py_int_positive|].
  pose proof (py_int_positive p) as Hp.
  unfold pretty at 1, pretty_Z.
  change (pretty p) with (pretty (Z.pos p)).
  assert (Hd : ∃ a s, pretty (Z.pos p) = String a s ∧ all_digits (String a s)).
  { unfold pretty, pretty_Z, pretty, pretty_positive, pretty, pretty_N.
    rewrite decide_False by done.
    rewrite pretty_N_go_step by done.
    destruct (pretty_N_go_cons (N.pos p `div` 10)
                (pretty_N_char (N.pos p `mod` 10)) "") as (b & r & Heq).
    exists b, r. split; [done|]. rewrite <- Heq.
    rewrite <- pretty_N_go_step by done. by apply all_digits_pretty_N_go. }
  destruct Hd as (a & s & Heq & Hd). rewrite Heq in *.
  rewrite py_int_digits in Hp by done.
  unfold py_int.
  change ("-" +:+ String a s) with (String "-" (String a s)).
  rewrite lstrip_cons by done.
  rewrite rstrip_cons by done. rewrite rstrip_digits by done. unfold unsigned_val. rewrite Hp. done.
Qed.

Lemma py_str_not_empty n : py_str n ≠ "".
Proof.
  intros Heq. pose proof (py_int_py_str n) as Hn. by rewrite Heq in Hn.
Qed.

(** ** The supervisor's environment *)


(** ** File code raises file errors only *)

Lemma tame_ret {A} (a : A) : tame (ret a).
Proof. by intros d. Qed.

Lemma tame_get {A} (f : Files → A) : tame (get f).
Proof. by intros d. Qed.

Lemma tame_modify f : tame (modify f).
Proof. by intros d. Qed.

Lemma tame_bind {A B} (m : D A) (k : A → D B) :
  tame m → (∀ a, tame (k a)) → tame (bind m k).
Proof.
  intros Hm Hk d. unfold bind. specialize (Hm d).
  destruct (m d) as [[a|e|] d']; cbn in *; [apply Hk | done | done].
Qed.

Lemma tame_try_except {A} (m : D A) h :
  tame m → (∀ e, tame_result (@Raise A e) → tame (h e)) →
  tame (try_except m h).
Proof.
  intros Hm Hh d. unfold try_except. specialize (Hm d).
  destruct (m d) as [[a|e|] d']; cbn in *; [done | by apply Hh | done].
Qed.

Lemma tame_try_finally {A} (m : D A) f :
  tame m → tame f → tame (try_finally m f).
Proof.
  intros Hm Hf d. unfold try_finally. specialize (Hm d).
  destruct (m d) as [[a|e|] d']; cbn in *; [| |done].
  - specialize (Hf d'). by destruct (f d') as [[[]|e|] d''].
  - specialize (Hf d'). by destruct (f d') as [[[]|e'|] d''].
Qed.

Lemma tame_open t p : tame (open_ t p).
Proof.
  intros d. unfold open_.
  destruct (resolve _ _ _) as [q|]; [|done].
  destruct (lstat _ q) as [[c| |t']|]; try done.
  by destruct (stat _ _) as [[c| |t']|].
Qed.

Lemma tame_mkdir p : tame (mkdir p).
Proof.
  intros d. unfold mkdir.
  destruct (lstat _ _); [done|].
  by destruct (stat _ _) as [[c| |t']|].
Qed.

Lemma tame_remove p : tame (remove p).
Proof. intros d. unfold remove. by destruct (lstat _ _) as [[c| |t']|]. Qed.

Lemma tame_ln t l : tame (ln_sfn t l).
Proof.
  intros d. unfold ln_sfn.
  destruct (lstat _ (match lstat _ l with Some Dir => _ | _ => _ end))
    as [[c| |t']|]; try done; by destruct (check_dir _ _).
Qed.

Lemma tame_ensuredirs n p : tame (ensuredirs_from n p).
Proof.
  revert p. induction n as [|n IH]; intros p; cbn; [apply tame_ret|].
  destruct (decide _); [apply tame_ret|].
  apply tame_bind; [apply tame_get|]. intros b.
  apply tame_bind; [destruct b; [apply tame_ret | apply IH]|]. intros _.
  apply tame_bind; [apply tame_get|]. intros [|]; [apply tame_ret|].
  apply tame_try_except; [apply tame_mkdir|].
  intros [| | | | |e|] He; try done.
  destruct e; try done.
  apply tame_bind; [apply tame_get|]. by intros [|].
Qed.

Lemma tame_ensure p c : tame (ensure p c).
Proof.
  unfold ensure. apply tame_bind; [apply tame_ensuredirs|]. intros _.
  apply tame_bind; [apply tame_get|]. intros [|]; [apply tame_ret|].
  apply tame_bind; [apply tame_open|]. intros f. apply tame_modify.
Qed.

Lemma tame_assert_exists self : tame (assert_exists self).
Proof.
  unfold assert_exists. apply tame_bind; [apply tame_get|]. by intros [|].
Qed.

Lemma tame_ensure_directory_structure self :
  tame (ensure_directory_structure self).
Proof.
  unfold ensure_directory_structure, ensure_logs, ensure_dir.
  apply tame_bind; [apply tame_assert_exists|]. intros _.
  apply tame_bind; [apply tame_ensure|]. intros _.
  apply tame_bind; [apply tame_ensure|]. intros _.
  apply tame_bind.
  { apply tame_try_except; [apply tame_remove|].
    intros [| | | | |e|] He; try done. by destruct e. }
  intros _.
  apply tame_bind; [apply tame_get|]. intros b.
  apply tame_bind.
  { destruct b; [|apply tame_ret].
    apply tame_bind; [apply tame_open|]. intros f.
    apply tame_try_finally; apply tame_modify. }
  intros _.
  apply tame_bind; [apply tame_ensuredirs|]. intros _. apply tame_ln.
Qed.

(** ** The lock scope *)

Lemma os_close_eval fd w :
  os_close fd w =
    (if decide (fd ∈ w_fds w) then Ok tt else Raise (EnvError EBADF),
     closed fd w).
Proof.
  destruct w as [env [f s] cwd st al ct tr].
  unfold os_close, close_fd, closed. run. cbn.
  destruct (decide (fd ∈ s)) as [Hin|Hnin]; [done|].
  do 3 f_equal. unfold set_fds. cbn. f_equal.
  apply set_eq. intros x. rewrite elem_of_difference, elem_of_singleton.
  split; [|tauto]. intros Hx. split; [done|]. by intros ->.
Qed.

Lemma scoped_close {A} (m : M A) fd w :
  try_finally m (os_close fd) w =
    match m w with
    | (Replaced, w1) => (Replaced, w1)
    | (Ok a, w1) =>
        (if decide (fd ∈ w_fds w1) then Ok a else Raise (EnvError EBADF),
         closed fd w1)
    | (Raise e, w1) =>
        (if decide (fd ∈ w_fds w1) then Raise e else Raise (EnvError EBADF),
         closed fd w1)
    end.
Proof.
  unfold try_finally. destruct (m w) as [[a|e|] w1]; [| |done].
  - rewrite os_close_eval. by destruct (decide _).
  - rewrite os_close_eval. by destruct (decide _).
Qed.

Lemma flock_adopt {A} self (body : Z → M A) w s fd :
  w_env w !! PGCTL_SERVICE_LOCK = Some s → s ≠ "" → py_int s = Some fd →
  flock self body w = try_finally (body fd) (os_close fd) (popped w).
Proof.
  intros Hs Hne Hint. unfold flock, environ_pop.
  unfold bind at 1. rewrite Hs.
  destruct s as [|a s]; [done|]. cbn -[py_int]. by rewrite Hint.
Qed.

Lemma flock_flock_eval {A} service (body : Z → M A) w :
  flock_flock service body w =
    if bool_decide (head (w_contention w) = Some true)
    then (Raise Locked, refused service w)
    else try_finally (body (lowest_free (w_fds w)))
           (os_close (lowest_free (w_fds w))) (granted service w).
Proof.
  destruct w as [env [f s] cwd st al ct tr].
  unfold flock_flock, alloc_fd, granted, refused. run. cbn.
  destruct ct as [|[|] ct]; cbn; done.
Qed.

Lemma flock_fresh {A} self (body : Z → M A) w :
  truthy (w_env w !! PGCTL_SERVICE_LOCK) = false →
  flock self body w =
    flock_flock (strpath (path self))
      (fun lock =>
         on_files (ensure_directory_structure self) ;;;
         as_cwd (path self) (body lock))
      (popped w).
Proof.
  intros Hf. unfold flock, environ_pop. unfold bind at 1. by rewrite Hf.
Qed.

(** C3, as the code has it: when the lock entry of the environment holds a
    non-empty string that encodes an integer handle, the scope's body runs on
    that handle with no lock attempt, and on leaving the scope the handle is
    closed; when the entry is absent or empty, a fresh lock on the service
    directory is attempted: refused with Locked when another process holds
    it, and otherwise held (under a new descriptor) while the directory
    structure is ensured and the body runs in the service directory, and
    closed afterwards. *)
Theorem flock_adopts_or_acquires {A} self (body : Z → M A) w :
  (∀ s fd,
     w_env w !! PGCTL_SERVICE_LOCK = Some s → s ≠ "" → py_int s = Some fd →
     ∀ r w1, body fd (popped w) = (r, w1) → r ≠ Replaced →
       ∃ r', flock self body w = (r', closed fd w1)
             ∧ (fd ∈ w_fds w1 → r' = r)
             ∧ w_trace (closed fd w1) = w_trace w1 ++ [EvClose fd]
             ∧ w_contention (closed fd w1) = w_contention w1
             ∧ fd ∉ w_fds (closed fd w1))
  ∧ (truthy (w_env w !! PGCTL_SERVICE_LOCK) = false →
     flock self body w =
       if bool_decide (head (w_contention w) = Some true)
       then (Raise Locked, refused (strpath (path self)) (popped w))
       else
         try_finally
           (on_files (ensure_directory_structure self) ;;;
            as_cwd (path self) (body (lowest_free (w_fds w))))
           (os_close (lowest_free (w_fds w)))
           (granted (strpath (path self)) (popped w))).
Proof.
  split.
  - intros s fd Hs Hne Hint r w1 Hbody Hr.
    rewrite (flock_adopt self body w s fd) by done.
    rewrite scoped_close, Hbody.
    assert (Hclosed : fd ∉ w_fds (closed fd w1)).
    { destruct w1 as [env [f fd_set] cwd st al ct tr]. cbn.
      rewrite elem_of_difference, elem_of_singleton. tauto. }
    destruct r as [a|e|]; [| |done].
    + eexists. split; [reflexivity|].
      split; [intros Hin; by rewrite decide_True|]. by destruct w1.
    + eexists. split; [reflexivity|].
      split; [intros Hin; by rewrite decide_True|]. by destruct w1.
  - intros Hf. rewrite flock_fresh by done. by rewrite flock_flock_eval.
Qed.

Lemma flock_adopts_or_acquires_witness :
  ∃ r', flock demo (fun _ => ret tt) handoff_world
        = (r', closed 2 (popped handoff_world))
        ∧ r' = Ok tt.
Proof.
  assert (Hentry : w_env handoff_world !! PGCTL_SERVICE_LOCK = Some "2")
    by (vm_compute; reflexivity).
  assert (Hint : py_int "2" = Some 2) by reflexivity.
  assert (Hne : "2" ≠ "") by discriminate.
  assert (Hr : Ok tt ≠ @Replaced unit) by discriminate.
  destruct (flock_adopts_or_acquires demo (fun _ => ret tt) handoff_world)
    as [Hadopt _].
  destruct (Hadopt "2" 2 Hentry Hne Hint (Ok tt) (popped handoff_world)
              eq_refl Hr)
    as (r' & Heq & Hsame & _).
  exists r'. split; [exact Heq|]. apply Hsame. vm_compute. reflexivity.
Defined.

(** C3 as stated fails: an entry that is present but empty is not adopted;
    a fresh lock is attempted and granted. *)
Lemma flock_empty_entry_counterexample :
  w_env (set_env <[PGCTL_SERVICE_LOCK := ""]> demo_world)
    !! PGCTL_SERVICE_LOCK = Some ""
  ∧ (flock demo (fun _ => ret tt)
       (set_env <[PGCTL_SERVICE_LOCK := ""]> demo_world)).1 = Ok tt
  ∧ w_trace (flock demo (fun _ => ret tt)
               (set_env <[PGCTL_SERVICE_LOCK := ""]> demo_world)).2
    = [EvAcquire "/pg/web"; EvClose 3].
Proof. vm_compute. done. Qed.

(** C10: when an inherited handle is adopted, the lock entry is no longer in
    the environment the body runs in, nor (the body not writing the
    environment) after the scope; entering the scope again from there
    attempts a fresh lock on the service directory and hands the body the
    freshly opened descriptor, not the inherited handle. *)
Theorem handoff_single_use {A B} self (body : Z → M A) (again : Z → M B)
    w s fd :
  w_env w !! PGCTL_SERVICE_LOCK = Some s → s ≠ "" → py_int s = Some fd →
  (∀ v w0, w_env (body v w0).2 = w_env w0) →
  let w2 := (flock self body w).2 in
  w_env (popped w) !! PGCTL_SERVICE_LOCK = None
  ∧ w_env w2 !! PGCTL_SERVICE_LOCK = None
  ∧ flock self again w2 =
      if bool_decide (head (w_contention w2) = Some true)
      then (Raise Locked, refused (strpath (path self)) (popped w2))
      else
        try_finally
          (on_files (ensure_directory_structure self) ;;;
           as_cwd (path self) (again (lowest_free (w_fds w2))))
          (os_close (lowest_free (w_fds w2)))
          (granted (strpath (path self)) (popped w2)).
Proof.
  intros Hs Hne Hint Hbody w2.
  assert (Hpop : w_env (popped w) !! PGCTL_SERVICE_LOCK = None).
  { destruct w. cbn. apply lookup_delete_eq. }
  assert (Hw2 : w_env w2 !! PGCTL_SERVICE_LOCK = None).
  { subst w2. rewrite (flock_adopt self body w s fd) by done.
    rewrite scoped_close.
    specialize (Hbody fd (popped w)).
    destruct (body fd (popped w)) as [[a|e|] w1]; cbn in *.
    - destruct w1; cbn in *. by rewrite Hbody.
    - destruct w1; cbn in *. by rewrite Hbody.
    - by rewrite Hbody. }
  split; [done|]. split; [done|].
  rewrite flock_fresh by (by rewrite Hw2).
  by rewrite flock_flock_eval.
Qed.

Lemma handoff_single_use_witness :
  let w2 := (flock demo (fun _ => ret tt) handoff_world).2 in
  w_env w2 !! PGCTL_SERVICE_LOCK = None
  ∧ w_trace (flock demo (fun _ => ret tt) w2).2
    = [EvClose 2; EvAcquire "/pg/web"; EvClose 2].
Proof.
  assert (Hentry : w_env handoff_world !! PGCTL_SERVICE_LOCK = Some "2")
    by (vm_compute; reflexivity).
  assert (Hint : py_int "2" = Some 2) by reflexivity.
  assert (Hne : "2" ≠ "") by discriminate.
  destruct (handoff_single_use demo (fun _ => ret tt) (fun _ => ret tt)
              handoff_world "2" 2 Hentry Hne Hint (fun _ _ => eq_refl))
    as (_ & Hgone & Hagain).
  split; [exact Hgone|]. rewrite Hagain. vm_compute. reflexivity.
Defined.

(** ** Descriptors *)

Lemma lowest_free_from_fresh fuel (s : gset Z) (n : Z) :
  (size (filter (λ x : Z, (n ≤ x)%Z) s) ≤ fuel)%nat →
  lowest_free_from fuel s n ∉ s.
Proof.
  revert n. induction fuel as [|fuel IH]; intros n Hsize; cbn.
  - intros Hin.
    assert (Hempty : filter (λ x, n ≤ x) s ≡ ∅)
      by (apply size_empty_iff; lia).
    assert (Hn : n ∈ filter (λ x, n ≤ x) s)
      by (apply elem_of_filter; split; [lia | done]).
    rewrite Hempty in Hn. by apply not_elem_of_empty in Hn.
  - destruct (decide (n ∈ s)) as [Hin|Hnin]; [|done].
    apply IH.
    assert (Hsub : filter (λ x, n + 1 ≤ x) s ⊂ filter (λ x, n ≤ x) s).
    { split.
      - intros x. rewrite !elem_of_filter. intros [? ?]. split; [lia|done].
      - intros Hsup.
        assert (Hn : n ∈ filter (λ x, n + 1 ≤ x) s).
        { apply Hsup. apply elem_of_filter. split; [lia|done]. }
        apply elem_of_filter in Hn. lia. }
    apply subset_size in Hsub. lia.
Qed.

Lemma lowest_free_fresh (s : gset Z) : lowest_free s ∉ s.
Proof.
  apply lowest_free_from_fresh.
  apply subseteq_size. intros x. rewrite elem_of_filter. tauto.
Qed.

Lemma alloc_release (s : gset Z) :
  ({[lowest_free s]} ∪ s) ∖ {[lowest_free s]} = s.
Proof.
  pose proof (lowest_free_fresh s) as Hfresh.
  apply set_eq. intros x.
  rewrite elem_of_difference, elem_of_union, elem_of_singleton.
  split; [tauto|]. intros Hx. split; [tauto|]. by intros ->.
Qed.

Lemma keeps_fds_ret {A} (a : A) : keeps_fds (ret a).
Proof. by intros d. Qed.

Lemma keeps_fds_raise {A} e : keeps_fds (@raise Files A e).
Proof. by intros d. Qed.

Lemma keeps_fds_get {A} (f : Files → A) : keeps_fds (get f).
Proof. by intros d. Qed.

Lemma keeps_fds_bind {A B} (m : D A) (k : A → D B) :
  keeps_fds m → (∀ a, keeps_fds (k a)) → keeps_fds (bind m k).
Proof.
  intros Hm Hk d. unfold bind. specialize (Hm d).
  destruct (m d) as [[a|e|] d1]; cbn in *; [|done|done].
  by rewrite Hk.
Qed.

Lemma keeps_fds_try_except {A} (m : D A) h :
  keeps_fds m → (∀ e, keeps_fds (h e)) → keeps_fds (try_except m h).
Proof.
  intros Hm Hh d. unfold try_except. specialize (Hm d).
  destruct (m d) as [[a|e|] d1]; cbn in *; [done| |done].
  by rewrite Hh.
Qed.

Lemma keeps_fds_mkdir p : keeps_fds (mkdir p).
Proof.
  intros d. unfold mkdir.
  destruct (lstat _ _); [done|].
  by destruct (stat _ _) as [[c| |t1]|].
Qed.

Lemma keeps_fds_remove p : keeps_fds (remove p).
Proof. intros d. unfold remove. by destruct (lstat _ _) as [[c| |t1]|]. Qed.

Lemma keeps_fds_ln t l : keeps_fds (ln_sfn t l).
Proof.
  intros d. unfold ln_sfn.
  destruct (lstat _ (match lstat _ l with Some Dir => _ | _ => _ end))
    as [[c| |t1]|]; try done; by destruct (check_dir _ _).
Qed.

Lemma keeps_fds_ensuredirs n p : keeps_fds (ensuredirs_from n p).
Proof.
  revert p. induction n as [|n IH]; intros p; cbn; [apply keeps_fds_ret|].
  destruct (decide _); [apply keeps_fds_ret|].
  apply keeps_fds_bind; [apply keeps_fds_get|]. intros b.
  apply keeps_fds_bind; [destruct b; [apply keeps_fds_ret | apply IH]|].
  intros _.
  apply keeps_fds_bind; [apply keeps_fds_get|].
  intros [|]; [apply keeps_fds_ret|].
  apply keeps_fds_try_except; [apply keeps_fds_mkdir|].
  intros [| | | | |e|]; try apply keeps_fds_raise.
  destruct e; try apply keeps_fds_raise.
  apply keeps_fds_bind; [apply keeps_fds_get|].
  intros [|]; [apply keeps_fds_ret | apply keeps_fds_raise].
Qed.

(** What [open] gives: the lowest free descriptor, on the resolved entry. *)
Lemma open_fds t p d :
  match open_ t p d with
  | (Ok f, d1) =>
      fileno f = lowest_free (fds d)
      ∧ fds d1 = {[lowest_free (fds d)]} ∪ fds d
  | (_, d1) => d1 = d
  end.
Proof.
  unfold open_.
  destruct (resolve _ _ _) as [q|]; [|done].
  destruct (lstat _ q) as [[c| |t1]|]; try done.
  by destruct (stat _ _) as [[c| |t1]|].
Qed.

Lemma keeps_fds_open_close t p (k : file → D unit) :
  (∀ f, keeps_fds (k f)) → (∀ f d, (k f d).1 ≠ Replaced) →
  keeps_fds (f <- open_ t p ;; try_finally (k f) (close f)).
Proof.
  intros Hk Hrun d. unfold bind. pose proof (open_fds t p d) as Hopen.
  destruct (open_ t p d) as [[f|e|] d1]; cbn; [|by subst|by subst].
  destruct Hopen as [Hf Hd1]. unfold try_finally, close, modify.
  specialize (Hk f d1). specialize (Hrun f d1).
  destruct (k f d1) as [[[]|e|] d2]; cbn in *.
  - rewrite Hk, Hd1, Hf. apply alloc_release.
  - rewrite Hk, Hd1, Hf. apply alloc_release.
  - done.
Qed.

Lemma keeps_fds_ensure p c : keeps_fds (ensure p c).
Proof.
  unfold ensure.
  apply keeps_fds_bind; [apply keeps_fds_ensuredirs|]. intros _.
  apply keeps_fds_bind; [apply keeps_fds_get|].
  intros [|]; [apply keeps_fds_ret|].
  intros d. unfold bind. pose proof (open_fds true (join p c) d) as Hopen.
  destruct (open_ true (join p c) d) as [[f|e|] d1]; cbn; [|by subst|by subst].
  destruct Hopen as [-> ->]. apply alloc_release.
Qed.

Lemma keeps_fds_ensure_directory_structure self :
  keeps_fds (ensure_directory_structure self).
Proof.
  unfold ensure_directory_structure, ensure_logs, ensure_dir, assert_exists.
  apply keeps_fds_bind.
  { apply keeps_fds_bind; [apply keeps_fds_get|].
    intros [|]; [apply keeps_fds_ret | apply keeps_fds_raise]. }
  intros _.
  apply keeps_fds_bind; [apply keeps_fds_ensure|]. intros _.
  apply keeps_fds_bind; [apply keeps_fds_ensure|]. intros _.
  apply keeps_fds_bind.
  { apply keeps_fds_try_except; [apply keeps_fds_remove|].
    intros [| | | | |e|]; try apply keeps_fds_raise.
    destruct e; try apply keeps_fds_raise. apply keeps_fds_ret. }
  intros _.
  apply keeps_fds_bind; [apply keeps_fds_get|]. intros b.
  apply keeps_fds_bind.
  { destruct b; [|apply keeps_fds_ret].
    apply keeps_fds_open_close; by intros f d. }
  intros _.
  apply keeps_fds_bind; [apply keeps_fds_ensuredirs|]. intros _.
  apply keeps_fds_ln.
Qed.

(** ** The race loop of assert_stopped *)

Lemma svstat_missing self w :
  check_dir (w_fs w) (path self) = false →
  svstat self w = (Raise (NoSuchService (name self)), w).
Proof.
  destruct w. unfold svstat, assert_exists. run. by intros ->.
Qed.

Lemma count_app f (t1 t2 : list event) :
  count f (t1 ++ t2) = (count f t1 + count f t2)%nat.
Proof. unfold count. by rewrite List.filter_app, length_app. Qed.

Lemma as_cwd_ret {A} p (a : A) w : as_cwd p (ret a) w = (Ok a, w).
Proof. by destruct w. Qed.

Section RaceLoop.

Context (self : Service).

Lemma race_adopt n w s :
  w_env w !! PGCTL_SERVICE_LOCK = Some s → s ≠ "" →
  race self (S n) w =
    match py_int s with
    | None => (Raise ValueError, popped w)
    | Some fd =>
        (if decide (fd ∈ w_fds w) then Ok tt else Raise (EnvError EBADF),
         closed fd (popped w))
    end.
Proof.
  intros Hs Hne. cbn [race]. unfold bind at 1, try_except.
  destruct (py_int s) as [fd|] eqn:Hint.
  - rewrite (flock_adopt self _ w s fd) by done.
    rewrite scoped_close. cbn.
    replace (w_fds (popped w)) with (w_fds w) by by destruct w.
    by destruct (decide (fd ∈ w_fds w)).
  - unfold flock, environ_pop. unfold bind at 1. rewrite Hs.
    destruct s as [|a s]; [done|]. cbn -[py_int]. by rewrite Hint.
Qed.

Lemma race_lost n w :
  truthy (w_env w !! PGCTL_SERVICE_LOCK) = false →
  head (w_contention w) = Some true →
  race self (S n) w =
    race self n
      (emit (EvRunaway (strpath (path self)))
         (refused (strpath (path self)) (popped w))).
Proof.
  intros Hf Hbusy. cbn [race]. unfold bind at 1, try_except.
  rewrite flock_fresh by done. rewrite flock_flock_eval.
  replace (w_contention (popped w)) with (w_contention w) by by destruct w.
  rewrite bool_decide_eq_true_2 by done.
  unfold show_runaway_processes. run. done.
Qed.

Lemma race_won n w :
  truthy (w_env w !! PGCTL_SERVICE_LOCK) = false →
  head (w_contention w) ≠ Some true →
  ∃ r d,
    ensure_directory_structure self
      (set_fds (fun s => {[lowest_free (w_fds w)]} ∪ s) (w_files w)) = (r, d)
    ∧ race self (S n) w =
        (match r with
         | Ok _ => Ok tt
         | Raise e => Raise e
         | Replaced => Replaced
         end,
         closed (lowest_free (w_fds w))
           (set_files d (granted (strpath (path self)) (popped w)))).
Proof.
  intros Hf Hfree.
  destruct (ensure_directory_structure self
              (set_fds (fun s => {[lowest_free (w_fds w)]} ∪ s) (w_files w)))
    as [r d] eqn:Hens.
  exists r, d. split; [done|].
  pose proof (tame_ensure_directory_structure self
                (set_fds (fun s => {[lowest_free (w_fds w)]} ∪ s) (w_files w)))
    as Htame.
  pose proof (keeps_fds_ensure_directory_structure self
                (set_fds (fun s => {[lowest_free (w_fds w)]} ∪ s) (w_files w)))
    as Hfds.
  rewrite Hens in Htame, Hfds. cbn in Htame, Hfds.
  assert (Hin : lowest_free (w_fds w) ∈ fds d).
  { rewrite Hfds. apply elem_of_union_l. by apply elem_of_singleton. }
  cbn [race]. unfold bind at 1, try_except.
  rewrite flock_fresh by done. rewrite flock_flock_eval.
  replace (w_contention (popped w)) with (w_contention w) by by destruct w.
  rewrite bool_decide_eq_false_2 by done.
  replace (w_fds (popped w)) with (w_fds w) by by destruct w.
  rewrite scoped_close.
  unfold bind at 1, on_files.
  replace (w_files (granted (strpath (path self)) (popped w)))
    with (set_fds (fun s => {[lowest_free (w_fds w)]} ∪ s) (w_files w))
    by by destruct w.
  rewrite Hens.
  destruct r as [[]|e|]; [| |done].
  - rewrite as_cwd_ret. cbn [w_fds set_files w_files].
    rewrite decide_True by (by destruct w). by cbn.
  - cbn [w_fds set_files w_files].
    rewrite decide_True by (by destruct w).
    destruct e; try done.
Qed.

Lemma trace_emit e w : w_trace (emit e w) = w_trace w ++ [e].
Proof. by destruct w. Qed.

Lemma trace_won p fd d w :
  w_trace (closed fd (set_files d (granted p (popped w))))
  = w_trace w ++ [EvAcquire p; EvClose fd].
Proof. destruct w. cbn. by rewrite <- app_assoc. Qed.

Lemma trace_lost p w :
  w_trace (emit (EvRunaway p) (refused p (popped w)))
  = w_trace w ++ [EvAcquire p; EvRunaway p].
Proof. destruct w. cbn. by rewrite <- app_assoc. Qed.

Lemma race_trace n w :
  ∃ rest,
    w_trace (race self n w).2 = w_trace w ++ rest
    ∧ queries rest = 0%nat
    ∧ (attempts rest ≤ n)%nat.
Proof.
  revert w. induction n as [|n IH]; intros w.
  { exists []. cbn. by rewrite app_nil_r. }
  destruct (truthy (w_env w !! PGCTL_SERVICE_LOCK)) eqn:Htruthy.
  - destruct (w_env w !! PGCTL_SERVICE_LOCK) as [[|a s]|] eqn:Hs; try done.
    rewrite (race_adopt n w (String a s)) by done.
    destruct (py_int (String a s)) as [fd|].
    + exists [EvClose fd]. split; [by destruct w|]. cbn. split; [done|lia].
    + exists []. split; [destruct w; cbn; by rewrite app_nil_r|].
      cbn. split; [done|lia].
  - destruct (decide (head (w_contention w) = Some true)) as [Hbusy|Hfree].
    + rewrite race_lost by done.
      destruct (IH (emit (EvRunaway (strpath (path self)))
                      (refused (strpath (path self)) (popped w))))
        as (rest & Htrace & Hq & Ha).
      exists ([EvAcquire (strpath (path self));
               EvRunaway (strpath (path self))] ++ rest).
      split.
      * rewrite Htrace. destruct w. cbn. by rewrite <- !app_assoc.
      * unfold queries, attempts in *. rewrite !count_app, Hq.
        cbn. split; [done|lia].
    + destruct (race_won n w Htruthy Hfree) as (r & d & _ & ->).
      exists [EvAcquire (strpath (path self));
              EvClose (lowest_free (w_fds w))].
      split.
      * destruct w. cbn. by rewrite <- !app_assoc.
      * cbn. split; [done|lia].
Qed.

(** What the loop leaves in the trace: rounds of a refused attempt followed
    by the report of runaway processes, then nothing more, or the close of
    an adopted handle, or a granted attempt and the close of its handle. *)
Lemma race_shape n w :
  ∃ k tail,
    w_trace (race self n w).2
    = w_trace w
      ++ concat (replicate k [EvAcquire (strpath (path self));
                              EvRunaway (strpath (path self))])
      ++ tail
    ∧ (k ≤ n)%nat
    ∧ (tail = []
       ∨ (∃ fd, k = 0%nat
                ∧ truthy (w_env w !! PGCTL_SERVICE_LOCK) = true
                ∧ tail = [EvClose fd])
       ∨ (∃ fd, (k < n)%nat
                ∧ tail = [EvAcquire (strpath (path self)); EvClose fd])).
Proof.
  revert w. induction n as [|n IH]; intros w.
  { exists 0%nat, []. cbn. rewrite app_nil_r. split; [done|].
    split; [lia|by left]. }
  destruct (truthy (w_env w !! PGCTL_SERVICE_LOCK)) eqn:Htruthy.
  - destruct (w_env w !! PGCTL_SERVICE_LOCK) as [[|a s]|] eqn:Hs; try done.
    rewrite (race_adopt n w (String a s)) by done.
    destruct (py_int (String a s)) as [fd|].
    + exists 0%nat, [EvClose fd]. split; [by destruct w|].
      split; [lia|]. right. left. by exists fd.
    + exists 0%nat, []. split; [destruct w; cbn; by rewrite app_nil_r|].
      split; [lia|by left].
  - destruct (decide (head (w_contention w) = Some true)) as [Hbusy|Hfree].
    + rewrite race_lost by done.
      destruct (IH (emit (EvRunaway (strpath (path self)))
                      (refused (strpath (path self)) (popped w))))
        as (k & tail & Htrace & Hk & Htail).
      exists (S k), tail. split; [|split; [lia|]].
      * rewrite Htrace, trace_lost. cbn [replicate concat].
        by rewrite <- !app_assoc.
      * destruct Htail as [->|[(fd & _ & Hadopt & _)|(fd & Hlt & ->)]].
        -- by left.
        -- exfalso. revert Hadopt. destruct w. cbn.
           by rewrite lookup_delete_eq.
        -- right. right. exists fd. split; [lia|done].
    + destruct (race_won n w Htruthy Hfree) as (r & d & _ & ->).
      exists 0%nat, [EvAcquire (strpath (path self));
                     EvClose (lowest_free (w_fds w))].
      cbn [snd]. split; [by rewrite trace_won|]. split; [lia|].
      right. right. exists (lowest_free (w_fds w)). split; [lia|done].
Qed.

Lemma count_rounds f (a b : event) k :
  count f (concat (replicate k [a; b])) = (k * count f [a; b])%nat.
Proof.
  induction k as [|k IH]; [done|].
  cbn [replicate concat]. rewrite count_app, IH. lia.
Qed.

Lemma race_after_losses k n w rest :
  truthy (w_env w !! PGCTL_SERVICE_LOCK) = false →
  w_contention w = replicate k true ++ rest →
  head rest ≠ Some true →
  attempts (w_trace (race self (k + S n) w).2)
  = (attempts (w_trace w) + k + 1)%nat
  ∧ count is_runaway (w_trace (race self (k + S n) w).2)
    = (count is_runaway (w_trace w) + k)%nat
  ∧ (∀ msg, (race self (k + S n) w).1 ≠ Raise (Impossible msg))
  ∧ (race self (k + S n) w).1
    = (ensure_directory_structure self (alloc_fd (w_files w)).2).1.
Proof.
  revert w. induction k as [|k IH]; intros w Htruthy Hcont Hrest.
  - cbn [replicate app] in Hcont. cbn [Nat.add].
    assert (Hfree : head (w_contention w) ≠ Some true) by by rewrite Hcont.
    destruct (race_won n w Htruthy Hfree) as (r & d & Hens & ->).
    pose proof (tame_ensure_directory_structure self
                  (set_fds (fun s => {[lowest_free (w_fds w)]} ∪ s)
                     (w_files w))) as Htame.
    rewrite Hens in Htame.
    cbn [fst snd]. rewrite trace_won. unfold attempts. rewrite !count_app.
    split; [cbn; lia|]. split; [cbn; lia|]. split.
    + intros msg. destruct r as [[]|e|]; try done.
      destruct e; try done.
    + unfold alloc_fd. cbn [snd]. unfold w_fds in Hens. rewrite Hens.
      cbn. by destruct r as [[]|e|].
  - assert (Hbusy : head (w_contention w) = Some true) by by rewrite Hcont.
    cbn [Nat.add]. rewrite race_lost by done.
    set (w1 := emit _ _).
    assert (Htrace1 : w_trace w1 = w_trace w ++
              [EvAcquire (strpath (path self));
               EvRunaway (strpath (path self))]) by apply trace_lost.
    destruct (IH w1) as (Ha & Hr & Himp & Hok).
    + subst w1. destruct w. cbn. by rewrite lookup_delete_eq.
    + subst w1. destruct w. cbn in *. by rewrite Hcont.
    + done.
    + rewrite Ha, Hr, Htrace1. unfold attempts. rewrite !count_app.
      split; [cbn; lia|]. split; [cbn; lia|]. split; [done|].
      rewrite Hok. subst w1. by destruct w.
Qed.

Lemma race_all_lost n w rest :
  truthy (w_env w !! PGCTL_SERVICE_LOCK) = false →
  w_contention w = replicate n true ++ rest →
  (race self n w).1 = Raise (Impossible "lost the race 10 times in a row")
  ∧ attempts (w_trace (race self n w).2) = (attempts (w_trace w) + n)%nat.
Proof.
  revert w. induction n as [|n IH]; intros w Htruthy Hcont.
  - cbn. split; [done|lia].
  - assert (Hbusy : head (w_contention w) = Some true) by by rewrite Hcont.
    rewrite race_lost by done.
    set (w1 := emit _ _).
    assert (Htrace1 : w_trace w1 = w_trace w ++
              [EvAcquire (strpath (path self));
               EvRunaway (strpath (path self))]) by apply trace_lost.
    destruct (IH w1) as (Himp & Ha).
    + subst w1. destruct w. cbn. by rewrite lookup_delete_eq.
    + subst w1. destruct w. cbn in *. by rewrite Hcont.
    + split; [done|]. rewrite Ha, Htrace1. unfold attempts.
      rewrite !count_app. cbn. lia.
Qed.

End RaceLoop.

Lemma assert_stopped_eval self w :
  assert_stopped self w =
    match svstat self w with
    | (Ok status, w1) =>
        if decide (state status ≠ UNSUPERVISED)
        then (Raise (NotReady status), w1)
        else race self 10 w1
    | (Raise e, w1) => (Raise e, w1)
    | (Replaced, w1) => (Replaced, w1)
    end.
Proof.
  unfold assert_stopped, bind.
  destruct (svstat self w) as [[status|e|] w1]; [|done|done].
  by destruct (decide _).
Qed.

Lemma svstat_ok_world self w status :
  (svstat self w).1 = Ok status →
  (svstat self w).2
  = emit (EvSvstat (from_cwd (dirpath (path self)) (name self))) w.
Proof.
  destruct (check_dir (w_fs w) (path self)) eqn:Hdir.
  - by rewrite svstat_existing.
  - by rewrite svstat_missing.
Qed.

(** C4, as the code has it: [assert_stopped] makes at most 10 lock
    attempts.  When the status is unsupervised and the lock is held by
    others at the first [k < 10] attempts and free at the next, it makes
    [k + 1] attempts and no more (one attempt and no report of runaway
    processes when [k = 0]) and does not raise Impossible: the attempt that
    is granted ends the loop with the outcome of ensuring the directory
    structure under the lock, success when that succeeds and its error
    otherwise.  When all 10 attempts find the lock held, it raises
    Impossible after exactly 10 attempts. *)
Theorem assert_stopped_race self w :
  (attempts (w_trace (assert_stopped self w).2)
   ≤ attempts (w_trace w) + 10)%nat
  ∧ (∀ status k rest,
       (svstat self w).1 = Ok status → state status = UNSUPERVISED →
       truthy (w_env w !! PGCTL_SERVICE_LOCK) = false →
       w_contention w = replicate k true ++ rest →
       head rest ≠ Some true →
       (k < 10)%nat →
       attempts (w_trace (assert_stopped self w).2)
       = (attempts (w_trace w) + k + 1)%nat
       ∧ count is_runaway (w_trace (assert_stopped self w).2)
         = (count is_runaway (w_trace w) + k)%nat
       ∧ (∀ msg, (assert_stopped self w).1 ≠ Raise (Impossible msg))
       ∧ (assert_stopped self w).1
         = (ensure_directory_structure self (alloc_fd (w_files w)).2).1)
  ∧ (∀ status rest,
       (svstat self w).1 = Ok status → state status = UNSUPERVISED →
       truthy (w_env w !! PGCTL_SERVICE_LOCK) = false →
       w_contention w = replicate 10 true ++ rest →
       (assert_stopped self w).1
       = Raise (Impossible "lost the race 10 times in a row")
       ∧ attempts (w_trace (assert_stopped self w).2)
         = (attempts (w_trace w) + 10)%nat).
Proof.
  rewrite assert_stopped_eval.
  split; [|split].
  - destruct (svstat self w) as [[status|e|] w1] eqn:Hsv.
    + pose proof (svstat_ok_world self w status) as Hw1.
      rewrite Hsv in Hw1. cbn in Hw1. specialize (Hw1 eq_refl). subst w1.
      destruct (decide _).
      * cbn [snd]. rewrite trace_emit. unfold attempts.
        rewrite count_app. cbn. lia.
      * destruct (race_trace self 10 (emit (EvSvstat
                    (from_cwd (dirpath (path self)) (name self))) w))
          as (rest & -> & _ & Ha).
        rewrite trace_emit. unfold attempts in *.
        rewrite !count_app. cbn. lia.
    + destruct (check_dir (w_fs w) (path self)) eqn:Hdir.
      * by rewrite svstat_existing in Hsv.
      * rewrite svstat_missing in Hsv by done. injection Hsv as _ <-. cbn. lia.
    + destruct (check_dir (w_fs w) (path self)) eqn:Hdir.
      * by rewrite svstat_existing in Hsv.
      * by rewrite svstat_missing in Hsv.
  - intros status k rest Hsv Hstate Htruthy Hcont Hrest Hk.
    pose proof (svstat_ok_world self w status Hsv) as Hw1.
    destruct (svstat self w) as [r w1]. cbn in Hsv, Hw1. subst r w1.
    rewrite decide_False by (by intros ?).
    replace 10%nat with (k + S (9 - k))%nat by lia.
    set (w1 := emit _ w).
    assert (Htrace1 : w_trace w1 = w_trace w ++
              [EvSvstat (from_cwd (dirpath (path self)) (name self))])
      by apply trace_emit.
    destruct (race_after_losses self k (9 - k) w1 rest)
      as (Ha & Hr & Himp & Hok); [done..|].
    rewrite Ha, Hr, Htrace1. unfold attempts. rewrite !count_app. cbn.
    split; [lia|]. split; [lia|]. split; [done|]. exact Hok.
  - intros status rest Hsv Hstate Htruthy Hcont.
    pose proof (svstat_ok_world self w status Hsv) as Hw1.
    destruct (svstat self w) as [r w1]. cbn in Hsv, Hw1. subst r w1.
    rewrite decide_False by (by intros ?).
    set (w1 := emit _ w).
    assert (Htrace1 : w_trace w1 = w_trace w ++
              [EvSvstat (from_cwd (dirpath (path self)) (name self))])
      by apply trace_emit.
    destruct (race_all_lost self 10 w1 rest) as (Himp & Ha); [done..|].
    split; [done|]. rewrite Ha, Htrace1. unfold attempts.
    rewrite !count_app. cbn. lia.
Qed.

Lemma assert_stopped_race_witness :
  assert_stopped demo demo_world
  = (Ok tt,
     set_files (ensure_directory_structure demo demo_files).2
       (closed 3 (granted "/pg/web"
                    (emit (EvSvstat ["pg"; "web"]) demo_world))))
  ∧ attempts (w_trace (assert_stopped demo
                         (set_contention [true; true] demo_world)).2) = 3%nat
  ∧ (assert_stopped demo (set_contention [true; true] demo_world)).1 = Ok tt.
Proof.
  split; [vm_compute; reflexivity|].
  destruct (assert_stopped_race demo (set_contention [true; true] demo_world))
    as (_ & Hwon & _).
  assert (Hsv : (svstat demo (set_contention [true; true] demo_world)).1
                = Ok unsupervised_status) by (vm_compute; reflexivity).
  assert (Hfalsy : truthy (w_env (set_contention [true; true] demo_world)
                             !! PGCTL_SERVICE_LOCK) = false)
    by (vm_compute; reflexivity).
  assert (Hfree : head (@nil bool) ≠ Some true) by discriminate.
  assert (Hk : (2 < 10)%nat) by lia.
  destruct (Hwon unsupervised_status 2%nat [] Hsv eq_refl Hfalsy eq_refl
              Hfree Hk) as (Ha & _ & _ & Hok).
  split; [exact Ha|]. rewrite Hok. vm_compute. reflexivity.
Defined.

(** C4 as stated fails: with the status unsupervised and the lock held by
    nobody, [assert_stopped] does not succeed when the service's log entry is
    a directory: the one attempt is granted, the directory structure cannot
    be ensured, and the file error EISDIR is raised. *)
Lemma assert_stopped_free_lock_counterexample :
  (svstat demo (set_files log_dir_files demo_world)).1
  = Ok unsupervised_status
  ∧ w_env (set_files log_dir_files demo_world) !! PGCTL_SERVICE_LOCK = None
  ∧ w_contention (set_files log_dir_files demo_world) = []
  ∧ (assert_stopped demo (set_files log_dir_files demo_world)).1
    = Raise (EnvError EISDIR)
  ∧ attempts (w_trace (assert_stopped demo
                         (set_files log_dir_files demo_world)).2) = 1%nat.
Proof. vm_compute. done. Qed.

(** C5, as the code has it: [assert_stopped] queries the status once, before
    the loop, and checks it there: a status that is not unsupervised raises
    NotReady with no lock attempt, an unsupervised one starts the loop.  The
    up-to-10 rounds of the loop only attempt the lock, every refused attempt
    being followed by the report of runaway processes, without any further
    status query: after the one query the trace holds [k ≤ 10] rounds of a
    refused attempt and its report, and then nothing, or the close of an
    adopted handle, or a granted attempt and the close of its handle. *)
Theorem assert_stopped_queries_once self w :
  (∀ status,
     (svstat self w).1 = Ok status →
     (state status ≠ UNSUPERVISED →
      assert_stopped self w = (Raise (NotReady status), (svstat self w).2)
      ∧ attempts (w_trace (assert_stopped self w).2) = attempts (w_trace w))
     ∧ (state status = UNSUPERVISED →
        assert_stopped self w = race self 10 (svstat self w).2))
  ∧ ∃ k tail rest,
      w_trace (assert_stopped self w).2
      = w_trace w
        ++ (if check_dir (w_fs w) (path self)
            then [EvSvstat (from_cwd (dirpath (path self)) (name self))]
            else [])
        ++ rest
      ∧ rest = concat (replicate k [EvAcquire (strpath (path self));
                                    EvRunaway (strpath (path self))])
               ++ tail
      ∧ (k ≤ 10)%nat
      ∧ (tail = []
         ∨ (∃ fd, k = 0%nat ∧ tail = [EvClose fd])
         ∨ (∃ fd, (k < 10)%nat
                  ∧ tail = [EvAcquire (strpath (path self)); EvClose fd]))
      ∧ queries rest = 0%nat
      ∧ (attempts rest ≤ 10)%nat
      ∧ count is_runaway rest = k.
Proof.
  split.
  - intros status Hsv.
    pose proof (svstat_ok_world self w status Hsv) as Hw1.
    rewrite assert_stopped_eval.
    destruct (svstat self w) as [r w1]. cbn in Hsv, Hw1. subst r w1.
    cbn [snd]. split; intros Hstate.
    + rewrite decide_True by done. split; [done|].
      cbn [snd]. rewrite trace_emit. unfold attempts.
      rewrite count_app. cbn. lia.
    + rewrite decide_False; [done|]. by intros Hne.
  - assert (Hshape : ∀ k tail,
              (tail = []
               ∨ (∃ fd, k = 0%nat ∧ tail = [EvClose fd])
               ∨ (∃ fd, (k < 10)%nat
                        ∧ tail = [EvAcquire (strpath (path self));
                                  EvClose fd])) →
              (k ≤ 10)%nat →
              queries (concat (replicate k [EvAcquire (strpath (path self));
                                            EvRunaway (strpath (path self))])
                       ++ tail) = 0%nat
              ∧ (attempts (concat (replicate k
                                     [EvAcquire (strpath (path self));
                                      EvRunaway (strpath (path self))])
                           ++ tail) ≤ 10)%nat
              ∧ count is_runaway
                  (concat (replicate k
                             [EvAcquire (strpath (path self));
                              EvRunaway (strpath (path self))])
                   ++ tail) = k).
    { intros k tail Htail Hk. unfold queries, attempts.
      rewrite !count_app, !count_rounds.
      destruct Htail as [->|[(fd & _ & ->)|(fd & Hlt & ->)]]; cbn; lia. }
    rewrite assert_stopped_eval.
    destruct (check_dir (w_fs w) (path self)) eqn:Hdir.
    + rewrite svstat_existing by done.
      destruct (decide _).
      * exists 0%nat, [], []. split; [by destruct w|]. split; [done|].
        split; [lia|]. split; [by left|]. cbn. split; [done|]. split; lia.
      * destruct (race_shape self 10 (emit (EvSvstat
                    (from_cwd (dirpath (path self)) (name self))) w))
          as (k & tail & -> & Hk & Htail).
        assert (Htail' : tail = []
                  ∨ (∃ fd, k = 0%nat ∧ tail = [EvClose fd])
                  ∨ (∃ fd, (k < 10)%nat
                           ∧ tail = [EvAcquire (strpath (path self));
                                     EvClose fd])).
        { destruct Htail as [?|[(fd & ? & _ & ?)|?]]; [by left| |by right; right].
          right. left. by exists fd. }
        exists k, tail,
          (concat (replicate k [EvAcquire (strpath (path self));
                                EvRunaway (strpath (path self))]) ++ tail).
        split.
        { rewrite trace_emit. by rewrite <- app_assoc. }
        split; [done|]. split; [done|]. split; [done|].
        by apply Hshape.
    + rewrite svstat_missing by done.
      exists 0%nat, [], []. cbn. split; [by rewrite app_nil_r|].
      split; [done|]. split; [lia|]. split; [by left|].
      split; [done|]. split; lia.
Qed.

Lemma assert_stopped_queries_once_witness :
  assert_stopped demo (set_status {[path demo := up_status]} demo_world)
  = (Raise (NotReady (replace_state "ready" up_status)),
     emit (EvSvstat ["pg"; "web"])
       (set_status {[path demo := up_status]} demo_world)).
Proof.
  destruct (assert_stopped_queries_once demo
              (set_status {[path demo := up_status]} demo_world))
    as [Hcheck _].
  destruct (Hcheck (replace_state "ready" up_status)) as [Hnot _].
  - vm_compute. reflexivity.
  - destruct Hnot as [Heq _]; [discriminate|]. exact Heq.
Defined.

(** C5 as stated fails: against a lock held throughout, the ten attempts
    come with a single status query. *)
Lemma assert_stopped_single_query_counterexample :
  attempts (w_trace (assert_stopped demo
                       (set_contention (replicate 10 true) demo_world)).2)
  = 10%nat
  ∧ queries (w_trace (assert_stopped demo
                        (set_contention (replicate 10 true) demo_world)).2)
    = 1%nat.
Proof. vm_compute. done. Qed.

(** ** The file system under the operations *)

Lemma elem_of_prefixes q p : q ∈ prefixes p ↔ q `prefix_of` p.
Proof.
  revert q. induction p as [|c p IH]; intros q; cbn.
  - rewrite list_elem_of_singleton. split.
    + intros ->. apply prefix_nil.
    + apply prefix_nil_inv.
  - rewrite elem_of_cons, list_elem_of_fmap. split.
    + intros [->|(q' & -> & Hq')]; [apply prefix_nil|].
      apply prefix_cons. by apply IH.
    + destruct q as [|c' q]; [by left|]. intros Hpre. right.
      pose proof (prefix_cons_inv_1 _ _ _ _ Hpre) as ->.
      exists q. split; [done|]. apply IH.
      by apply prefix_cons_inv_2 in Hpre.
Qed.

Lemma resolve_plain n fs q : plain fs q → resolve n fs q = Some q.
Proof.
  unfold plain. intros Hq.
  destruct n; cbn; by destruct (lstat fs q) as [[c| |t]|].
Qed.

Lemma stat_plain fs q : plain fs q → stat fs q = lstat fs q.
Proof. intros Hq. unfold stat. by rewrite resolve_plain. Qed.

Lemma check_dir_plain fs q :
  plain fs q → check_dir fs q = bool_decide (lstat fs q = Some Dir).
Proof. intros Hq. unfold check_dir. by rewrite stat_plain. Qed.

Lemma check_dir_lstat fs q : lstat fs q = Some Dir → check_dir fs q = true.
Proof.
  intros Hq. rewrite check_dir_plain; [by apply bool_decide_eq_true_2|].
  unfold plain. by rewrite Hq.
Qed.

Lemma lstat_insert fs k v q :
  k ≠ [] →
  lstat (<[k:=v]> fs) q = if decide (q = k) then Some v else lstat fs q.
Proof.
  intros Hk. destruct (decide (q = k)) as [->|Hne].
  - destruct k; [done|]. cbn. apply lookup_insert_eq.
  - destruct q; [done|]. cbn. by apply lookup_insert_ne.
Qed.

Lemma join_not_nil p c : join p c ≠ [].
Proof. unfold join. by destruct p. Qed.

Lemma lstat_None_not_nil fs q : lstat fs q = None → q ≠ [].
Proof. by intros Hq ->. Qed.

Lemma grows_refl p fs : grows p fs fs.
Proof. intros q. by left. Qed.

Lemma grows_trans p fs1 fs2 fs3 :
  grows p fs1 fs2 → grows p fs2 fs3 → grows p fs1 fs3.
Proof.
  intros H12 H23 q.
  destruct (H12 q) as [Heq|(Hpre & Hnone & Hdir)];
    destruct (H23 q) as [Heq'|(Hpre' & Hnone' & Hdir')].
  - left. congruence.
  - right. rewrite <- Heq. done.
  - right. rewrite Heq'. done.
  - congruence.
Qed.

Lemma grows_mono p p' fs fs' :
  p `prefix_of` p' → grows p fs fs' → grows p' fs fs'.
Proof.
  intros Hpp H q. destruct (H q) as [Heq|(Hpre & Hnone & Hdir)]; [by left|].
  right. split; [|done]. by etrans.
Qed.

Lemma grows_plain p fs fs' q : grows p fs fs' → plain fs q → plain fs' q.
Proof.
  unfold plain. intros H Hq.
  destruct (H q) as [->|(_ & _ & ->)]; done.
Qed.

Lemma grows_some p fs fs' q x :
  grows p fs fs' → lstat fs q = Some x → lstat fs' q = Some x.
Proof.
  intros H Hq. destruct (H q) as [->|(_ & Hnone & _)]; congruence.
Qed.

Lemma grows_outside p fs fs' q :
  grows p fs fs' → ¬ q `prefix_of` p → lstat fs' q = lstat fs q.
Proof. intros H Hq. destruct (H q) as [->|(Hpre & _ & _)]; done. Qed.

Lemma mkdir_ok p d d' :
  mkdir p d = (Ok tt, d') →
  lstat (fs d) p = None ∧ d' = set_fs <[p:=Dir]> d.
Proof.
  unfold mkdir. destruct (lstat (fs d) p); [done|].
  destruct (stat _ _) as [[c| |t]|]; try done. by intros [= <-].
Qed.

Lemma mkdir_raise p d e d' : mkdir p d = (Raise e, d') → d' = d.
Proof.
  unfold mkdir. destruct (lstat (fs d) p); [by intros [= _ <-]|].
  destruct (stat _ _) as [[c| |t]|]; try done; by intros [= _ <-].
Qed.

Lemma dirpath_prefix p : dirpath p `prefix_of` p.
Proof.
  destruct (decide (p = [])) as [->|Hne]; [done|].
  exists [List.last p ""]. unfold dirpath. by apply app_removelast_last.
Qed.

Lemma dirpath_length p : p ≠ [] → S (length (dirpath p)) = length p.
Proof.
  intros Hne. rewrite (app_removelast_last "" Hne) at 2.
  rewrite length_app. cbn. unfold dirpath. lia.
Qed.

(** What a successful [_ensuredirs] changes. *)
Lemma ensuredirs_grows n p d d' :
  ensuredirs_from n p d = (Ok tt, d') →
  grows p (fs d) (fs d') ∧ fds d' = fds d.
Proof.
  revert p d d'. induction n as [|n IH]; intros p d d'; cbn.
  { intros [= <-]. split; [apply grows_refl|done]. }
  destruct (decide (dirpath p = p)) as [_|Hne].
  { intros [= <-]. split; [apply grows_refl|done]. }
  unfold bind at 1, get. unfold bind at 1.
  destruct ((if check_dir (fs d) (dirpath p)
             then ret tt else ensuredirs_from n (dirpath p)) d)
    as [[[]|e|] d1] eqn:Hpar; [|done|done].
  assert (H1 : grows p (fs d) (fs d1) ∧ fds d1 = fds d).
  { destruct (check_dir (fs d) (dirpath p)).
    - injection Hpar as <-. split; [apply grows_refl|done].
    - apply IH in Hpar as [Hg Hf]. split; [|done].
      eapply grows_mono; [apply dirpath_prefix|done]. }
  destruct H1 as [Hg1 Hf1].
  unfold bind, get. destruct (check_dir (fs d1) p) eqn:Hdir.
  { intros [= <-]. done. }
  unfold try_except. destruct (mkdir p d1) as [[[]|e|] d2] eqn:Hmk.
  - intros [= <-]. apply mkdir_ok in Hmk as [Hnone ->]. split; [|done].
    eapply grows_trans; [exact Hg1|].
    intros q. cbn. rewrite lstat_insert by by apply lstat_None_not_nil in Hnone.
    destruct (decide (q = p)) as [->|Hq]; [right|by left]. done.
  - apply mkdir_raise in Hmk as ->.
    destruct e as [| | | | |[]|]; try done.
    unfold bind, get. by rewrite Hdir.
  - done.
Qed.

(** Once it succeeded, the directory and its parent are there. *)
Lemma ensuredirs_post n p d d' :
  (length p ≤ n)%nat →
  (∀ q, q `prefix_of` p → plain (fs d) q) →
  ensuredirs_from n p d = (Ok tt, d') →
  lstat (fs d') p = Some Dir ∧ lstat (fs d') (dirpath p) = Some Dir.
Proof.
  revert p d d'. induction n as [|n IH]; intros p d d' Hlen Hplain.
  { destruct p; [|cbn in Hlen; lia]. done. }
  cbn. destruct (decide (dirpath p = p)) as [Heq|Hne].
  { destruct p as [|c p]; [done|].
    exfalso. pose proof (dirpath_length (c :: p)) as Hl.
    rewrite Heq in Hl. cbn in Hl. specialize (Hl ltac:(done)). lia. }
  assert (Hp : p ≠ []) by (by intros ->).
  unfold bind at 1, get. unfold bind at 1.
  destruct ((if check_dir (fs d) (dirpath p)
             then ret tt else ensuredirs_from n (dirpath p)) d)
    as [[[]|e|] d1] eqn:Hpar; [|done|done].
  assert (H1 : grows p (fs d) (fs d1)
               ∧ lstat (fs d1) (dirpath p) = Some Dir).
  { destruct (check_dir (fs d) (dirpath p)) eqn:Hcd.
    - injection Hpar as <-. split; [apply grows_refl|].
      rewrite check_dir_plain in Hcd by (apply Hplain, dirpath_prefix).
      by apply bool_decide_eq_true_1 in Hcd.
    - pose proof (ensuredirs_grows _ _ _ _ Hpar) as [Hg _].
      apply IH in Hpar as [Hd _].
      + split; [|done]. eapply grows_mono; [apply dirpath_prefix|done].
      + pose proof (dirpath_length p Hp). lia.
      + intros q Hq. apply Hplain. etrans; [done|apply dirpath_prefix]. }
  destruct H1 as [Hg1 Hpd].
  assert (Hplain1 : plain (fs d1) p).
  { eapply grows_plain; [done|]. by apply Hplain. }
  unfold bind, get. destruct (check_dir (fs d1) p) eqn:Hdir.
  { intros [= <-]. split; [|done].
    rewrite check_dir_plain in Hdir by done.
    by apply bool_decide_eq_true_1 in Hdir. }
  unfold try_except. destruct (mkdir p d1) as [[[]|e|] d2] eqn:Hmk.
  - intros [= <-]. apply mkdir_ok in Hmk as [Hnone ->]. cbn.
    rewrite !lstat_insert by done.
    rewrite decide_True by done. rewrite decide_False by done. done.
  - apply mkdir_raise in Hmk as ->.
    destruct e as [| | | | |[]|]; try done.
    unfold bind, get. by rewrite Hdir.
  - done.
Qed.

(** It does nothing when the directory and its parent are there. *)
Lemma ensuredirs_noop n p d :
  lstat (fs d) p = Some Dir → lstat (fs d) (dirpath p) = Some Dir →
  ensuredirs_from n p d = (Ok tt, d).
Proof.
  intros Hp Hd. destruct n; cbn; [done|].
  destruct (decide _); [done|].
  unfold bind, get. rewrite (check_dir_lstat _ (dirpath p)) by done.
  cbn. by rewrite check_dir_lstat.
Qed.

Lemma grows_adds p fs fs' :
  grows p fs fs' → adds (λ q, q `prefix_of` p) fs fs'.
Proof.
  intros H q. destruct (H q) as [Heq|(Hpre & Hnone & Hdir)]; [by left|].
  right. by rewrite Hdir.
Qed.

Lemma adds_some S fs fs' q x :
  adds S fs fs' → lstat fs q = Some x → lstat fs' q = Some x.
Proof.
  intros H Hq. destruct (H q) as [->|(_ & Hnone & _)]; congruence.
Qed.

Lemma adds_plain S fs fs' q : adds S fs fs' → plain fs q → plain fs' q.
Proof.
  unfold plain. intros H Hq. destruct (H q) as [->|(_ & _ & ?)]; done.
Qed.

Lemma check_file_plain fs q :
  plain fs q →
  check_file fs q = true ↔ ∃ content, lstat fs q = Some (File content).
Proof.
  intros Hq. unfold check_file. rewrite stat_plain by done.
  destruct (lstat fs q) as [[c| |t]|]; split; try done.
  - eauto.
  - by intros [? ?].
  - by intros [? ?].
  - by intros [? ?].
Qed.

(** What a successful [ensure] of the file [p/c] changes and leaves. *)
Lemma ensure_effect p c d d' :
  (∀ q, q `prefix_of` p → plain (fs d) q) → plain (fs d) (join p c) →
  ensure p c d = (Ok tt, d') →
  fds d' = fds d
  ∧ adds (λ q, q `prefix_of` p ∨ q = join p c) (fs d) (fs d')
  ∧ lstat (fs d') p = Some Dir
  ∧ lstat (fs d') (dirpath p) = Some Dir
  ∧ ∃ content, lstat (fs d') (join p c) = Some (File content).
Proof.
  intros Hplain Hq. unfold ensure. rewrite dirpath_join.
  unfold bind at 1. unfold _ensuredirs.
  destruct (ensuredirs_from (length p) p d) as [[[]|e|] d1] eqn:Hdirs;
    [|done|done].
  pose proof (ensuredirs_grows _ _ _ _ Hdirs) as [Hg Hf1].
  pose proof (ensuredirs_post _ _ _ _ (le_n _) Hplain Hdirs) as [Hp Hpp].
  assert (Hq1 : plain (fs d1) (join p c)) by by eapply grows_plain.
  assert (Hadds1 : adds (λ q, q `prefix_of` p ∨ q = join p c) (fs d) (fs d1)).
  { intros q. destruct (grows_adds _ _ _ Hg q) as [?|(? & ? & ?)]; eauto. }
  unfold bind, get.
  destruct (check_file (fs d1) (join p c)) eqn:Hfile.
  { intros [= <-]. apply check_file_plain in Hfile; done. }
  assert (Hnofile : ∀ content, lstat (fs d1) (join p c) ≠ Some (File content)).
  { intros content Hc.
    assert (check_file (fs d1) (join p c) = true)
      by (apply check_file_plain; eauto).
    congruence. }
  unfold open_. rewrite resolve_plain by done.
  destruct (lstat (fs d1) (join p c)) as [[content| |t]|] eqn:Hl; try done.
  { by destruct (Hnofile content). }
  rewrite dirpath_join.
  rewrite stat_plain by (unfold plain; by rewrite Hp). rewrite Hp.
  unfold alloc_fd, close, modify, ret. cbn.
  intros [= <-]. cbn.
  split; [by rewrite alloc_release|].
  assert (Hins : ∀ q, lstat (<[join p c:=File ""]> (fs d1)) q
                      = if decide (q = join p c) then Some (File "")
                        else lstat (fs d1) q)
    by (intros q; apply lstat_insert, join_not_nil).
  split; [|split; [|split]].
  - intros q. rewrite Hins. destruct (decide (q = join p c)) as [->|Hne].
    + right. split; [by right|]. split; [|done].
      destruct (Hadds1 (join p c)) as [Heq|(_ & Hnone & _)]; congruence.
    + apply Hadds1.
  - rewrite Hins. rewrite decide_False; [done|].
    intros Heq. apply (f_equal length) in Heq.
    unfold join in Heq. rewrite length_app in Heq. cbn in Heq. lia.
  - rewrite Hins. rewrite decide_False; [done|].
    intros Heq. apply (f_equal length) in Heq.
    pose proof (prefix_length _ _ (dirpath_prefix p)).
    unfold join in Heq. rewrite length_app in Heq. cbn in Heq. lia.
  - exists "". rewrite Hins. by rewrite decide_True.
Qed.

(** [ensure] does nothing when the file, the directory and its parent are
    there. *)
Lemma ensure_noop p c d content :
  lstat (fs d) p = Some Dir → lstat (fs d) (dirpath p) = Some Dir →
  lstat (fs d) (join p c) = Some (File content) →
  ensure p c d = (Ok tt, d).
Proof.
  intros Hp Hpp Hq. unfold ensure. rewrite dirpath_join.
  unfold bind at 1. unfold _ensuredirs. rewrite ensuredirs_noop by done.
  unfold bind, get.
  assert (Hfile : check_file (fs d) (join p c) = true).
  { apply check_file_plain; [|eauto]. unfold plain. by rewrite Hq. }
  by rewrite Hfile.
Qed.

Lemma lstat_delete fs k q :
  k ≠ [] →
  lstat (delete k fs) q = if decide (q = k) then None else lstat fs q.
Proof.
  intros Hk. destruct (decide (q = k)) as [->|Hne].
  - destruct k; [done|]. cbn. apply lookup_delete_eq.
  - destruct q; [done|]. cbn. by apply lookup_delete_ne.
Qed.

Lemma lstat_rmtree (fs : gmap pypath node) k q :
  k ≠ [] →
  lstat (filter (λ kv, ¬ k `prefix_of` kv.1) fs) q
  = if decide (k `prefix_of` q) then None else lstat fs q.
Proof.
  intros Hk. destruct q as [|c q].
  { rewrite decide_False; [done|]. intros Hpre. by apply prefix_nil_inv in Hpre. }
  cbn [lstat]. destruct (decide (k `prefix_of` c :: q)) as [Hpre|Hnpre].
  - apply map_lookup_filter_None. right. intros x _. cbn. tauto.
  - destruct (fs !! (c :: q)) as [x|] eqn:Hx.
    + by apply map_lookup_filter_Some.
    + apply map_lookup_filter_None. by left.
Qed.

(** [remove], a missing entry being tolerated: the entry is gone, and what
    is not below it is as it was. *)
Lemma remove_effect p d d' :
  p ≠ [] →
  try_except (remove p)
    (fun e => match e with
              | EnvError ENOENT => ret tt
              | _ => raise e
              end) d = (Ok tt, d') →
  fds d' = fds d
  ∧ lstat (fs d') p = None
  ∧ (∀ q, ¬ p `prefix_of` q → lstat (fs d') q = lstat (fs d) q).
Proof.
  intros Hp. unfold try_except, remove.
  destruct (lstat (fs d) p) as [[content| |t]|] eqn:Hl.
  - intros [= <-]. split; [done|]. cbn. split.
    + rewrite lstat_delete by done. by rewrite decide_True.
    + intros q Hq. rewrite lstat_delete by done.
      rewrite decide_False; [done|]. by intros ->.
  - intros [= <-]. split; [done|]. cbn. split.
    + rewrite lstat_rmtree by done. by rewrite decide_True.
    + intros q Hq. rewrite lstat_rmtree by done. by rewrite decide_False.
  - intros [= <-]. split; [done|]. cbn. split.
    + rewrite lstat_delete by done. by rewrite decide_True.
    + intros q Hq. rewrite lstat_delete by done.
      rewrite decide_False; [done|]. by intros ->.
  - cbn. intros [= <-]. done.
Qed.

Lemma remove_noop p d :
  lstat (fs d) p = None →
  try_except (remove p)
    (fun e => match e with
              | EnvError ENOENT => ret tt
              | _ => raise e
              end) d = (Ok tt, d).
Proof. intros Hl. unfold try_except, remove. by rewrite Hl. Qed.

(** Writing the descriptor number to a file that is no link. *)
Lemma write_fd_effect q d d' :
  plain (fs d) q →
  (f <- open_ true q ;;
   try_finally (write f (py_str (fileno f) +:+ newline)) (close f)) d
  = (Ok tt, d') →
  q ≠ []
  ∧ fds d' = fds d
  ∧ lstat (fs d') q
    = Some (File (py_str (lowest_free (fds d)) +:+ newline))
  ∧ (∀ k, k ≠ q → lstat (fs d') k = lstat (fs d) k).
Proof.
  intros Hq. unfold bind, open_. rewrite resolve_plain by done.
  assert (Hwrite : ∀ fs0 : gmap pypath node,
            q ≠ [] →
            (∀ k, lstat (alter (append_content (py_str (lowest_free (fds d))
                                                  +:+ newline)) q
                           (<[q:=File ""]> fs0)) k
                  = if decide (k = q)
                    then Some (File (py_str (lowest_free (fds d)) +:+ newline))
                    else lstat fs0 k)).
  { intros fs0 Hne k. rewrite alter_insert_eq. cbn.
    by rewrite lstat_insert. }
  destruct (lstat (fs d) q) as [[content| |t]|] eqn:Hl; try done.
  - assert (Hne : q ≠ []) by (intros ->; done).
    unfold alloc_fd, ret, try_finally, write, close, modify. cbn.
    intros [= <-]. cbn. split; [done|].
    split; [by rewrite alloc_release|].
    split; [rewrite Hwrite by done; by rewrite decide_True|].
    intros k Hk. rewrite Hwrite by done. by rewrite decide_False.
  - assert (Hne : q ≠ []) by (intros ->; done).
    destruct (stat (fs d) (dirpath q)) as [[content| |t]|]; try done.
    unfold alloc_fd, ret, try_finally, write, close, modify. cbn.
    intros [= <-]. cbn. split; [done|].
    split; [by rewrite alloc_release|].
    split; [rewrite Hwrite by done; by rewrite decide_True|].
    intros k Hk. rewrite Hwrite by done. by rewrite decide_False.
Qed.

Lemma write_fd_noop q d :
  lstat (fs d) q = Some (File (py_str (lowest_free (fds d)) +:+ newline)) →
  (f <- open_ true q ;;
   try_finally (write f (py_str (fileno f) +:+ newline)) (close f)) d
  = (Ok tt, d).
Proof.
  intros Hq.
  assert (Hne : q ≠ []) by (intros ->; done).
  assert (Hfs : fs d !! q
                = Some (File (py_str (lowest_free (fds d)) +:+ newline)))
    by (by destruct q).
  unfold bind, open_.
  rewrite resolve_plain by (unfold plain; by rewrite Hq). rewrite Hq.
  unfold alloc_fd, ret, try_finally, write, close, modify. cbn.
  unfold set_fds, set_fs. cbn [fs fds].
  rewrite alter_insert_eq. cbn [append_content].
  rewrite insert_id by done.
  rewrite alloc_release. by destruct d.
Qed.

(** The link made by [ln -sfn]. *)
Lemma ln_effect target link d d' :
  link ≠ [] →
  ln_sfn target link d = (Ok tt, d') →
  fds d' = fds d
  ∧ ((lstat (fs d) link = Some Dir
      ∧ lstat (fs d') (join link (basename target)) = Some (Symlink target)
      ∧ ∀ k, k ≠ join link (basename target) →
             lstat (fs d') k = lstat (fs d) k)
     ∨ (lstat (fs d') link = Some (Symlink target)
        ∧ check_dir (fs d) (dirpath link) = true
        ∧ ∀ k, k ≠ link → lstat (fs d') k = lstat (fs d) k)).
Proof.
  intros Hlink. unfold ln_sfn.
  destruct (lstat (fs d) link) as [[content| |t]|] eqn:Hl.
  - rewrite Hl. destruct (check_dir _ _) eqn:Hcd; [|done].
    intros [= <-]. split; [done|]. right. cbn.
    split; [rewrite lstat_insert by done; by rewrite decide_True|].
    split; [done|].
    intros k Hk. rewrite lstat_insert by done. by rewrite decide_False.
  - destruct (lstat (fs d) (join link (basename target)))
      as [[content| |t]|] eqn:Hl';
      try done; (destruct (check_dir _ _) eqn:Hcd; [|done]);
      intros [= <-]; (split; [done|]); left; cbn;
      (split; [done|]);
      (split; [rewrite lstat_insert by apply join_not_nil;
               by rewrite decide_True|]);
      intros k Hk; rewrite lstat_insert by apply join_not_nil;
      by rewrite decide_False.
  - rewrite Hl. destruct (check_dir _ _) eqn:Hcd; [|done].
    intros [= <-]. split; [done|]. right. cbn.
    split; [rewrite lstat_insert by done; by rewrite decide_True|].
    split; [done|].
    intros k Hk. rewrite lstat_insert by done. by rewrite decide_False.
  - rewrite Hl. destruct (check_dir _ _) eqn:Hcd; [|done].
    intros [= <-]. split; [done|]. right. cbn.
    split; [rewrite lstat_insert by done; by rewrite decide_True|].
    split; [done|].
    intros k Hk. rewrite lstat_insert by done. by rewrite decide_False.
Qed.

Lemma ln_noop target link d :
  (lstat (fs d) link = Some Dir
   ∧ lstat (fs d) (join link (basename target)) = Some (Symlink target))
  ∨ (lstat (fs d) link = Some (Symlink target)
     ∧ check_dir (fs d) (dirpath link) = true) →
  ln_sfn target link d = (Ok tt, d).
Proof.
  unfold ln_sfn. intros [[Hl Hdest]|[Hl Hcd]].
  - rewrite Hl, Hdest, dirpath_join. rewrite check_dir_lstat by done.
    assert (Hfs : fs d !! join link (basename target) = Some (Symlink target)).
    { pose proof (join_not_nil link (basename target)).
      by destruct (join link (basename target)). }
    unfold set_fs. rewrite insert_id by done. by destruct d.
  - rewrite !Hl, Hcd.
    assert (Hfs : fs d !! link = Some (Symlink target))
      by (destruct link; done).
    unfold set_fs. rewrite insert_id by done. by destruct d.
Qed.

(** ** ensure_directory_structure *)

Section Layout.

Context (self : Service).
Hypothesis Hout : scratch_outside self.

(** On a settled layout the whole procedure changes nothing. *)
Lemma settled_noop d :
  settled self d → ensure_directory_structure self d = (Ok tt, d).
Proof.
  intros (HP & HPP & [c1 Hlog] & [c2 Hns] & Hdown & Hnfd & HT & HTT & Hln).
  unfold ensure_directory_structure, assert_exists, ensure_logs, ensure_dir.
  unfold bind at 1. unfold bind at 1, get.
  rewrite (check_dir_lstat _ _ HP). cbn [ret].
  unfold bind at 1. rewrite (ensure_noop _ _ _ c1) by done.
  unfold bind at 1. rewrite (ensure_noop _ _ _ c2) by done.
  unfold bind at 1. rewrite remove_noop by done.
  unfold bind at 1, get.
  unfold bind at 1.
  assert (Hnotify :
    (if exists_ (fs d) (ready_script self)
     then f <- open_ true (notification_fd self) ;;
          try_finally (write f (py_str (fileno f) +:+ newline)) (close f)
     else ret tt) d = (Ok tt, d)).
  { destruct (exists_ (fs d) (ready_script self)); [|done].
    by apply write_fd_noop, Hnfd. }
  rewrite Hnotify.
  unfold bind at 1. unfold _ensuredirs. rewrite ensuredirs_noop by done.
  apply ln_noop. rewrite basename_join.
  destruct Hln as [[Hl Hd]|Hl]; [by left|].
  right. split; [done|]. rewrite dirpath_join. by apply check_dir_lstat.
Qed.

Lemma prefix_join p a : p `prefix_of` join p a.
Proof. by exists [a]. Qed.

Lemma join_neq p a b : a ≠ b → join p a ≠ join p b.
Proof. intros Hab Heq. apply app_inj_tail in Heq as [_ ?]. done. Qed.

Lemma join_not_prefix_join p a b : a ≠ b → ¬ join p a `prefix_of` join p b.
Proof.
  intros Hab Hpre. apply (join_neq p a b Hab).
  apply prefix_length_eq; [done|]. unfold join. rewrite !length_app. cbn. lia.
Qed.

Lemma join_not_prefix p a q : q `prefix_of` p → ¬ join p a `prefix_of` q.
Proof.
  intros Hq Hpre. apply prefix_length in Hq, Hpre.
  unfold join in Hpre. rewrite length_app in Hpre. cbn in Hpre. lia.
Qed.

Lemma join_neq_prefix p a q : q `prefix_of` p → join p a ≠ q.
Proof. intros Hq Heq. apply (join_not_prefix p a q Hq). by rewrite Heq. Qed.

Lemma join_join_neq p a b c : join (join p a) b ≠ join p c.
Proof.
  intros Heq. apply (f_equal length) in Heq.
  unfold join in Heq. rewrite !length_app in Heq. cbn in Heq. lia.
Qed.

Lemma exists_lstat_eq fs fs' q :
  plain fs q → lstat fs' q = lstat fs q → exists_ fs' q = exists_ fs q.
Proof.
  intros Hq Heq. unfold exists_.
  rewrite !stat_plain; [by rewrite Heq|done|]. unfold plain. by rewrite Heq.
Qed.

Lemma plain_lstat_eq fs fs' q :
  plain fs q → lstat fs' q = lstat fs q → plain fs' q.
Proof. unfold plain. by intros Hq ->. Qed.

Lemma physical_spec d :
  physical self d →
  (∀ q, q `prefix_of` path self → plain (fs d) q)
  ∧ (∀ q, q `prefix_of` join (scratch_dir self) "supervise" →
          plain (fs d) q)
  ∧ plain (fs d) (join (path self) "log")
  ∧ plain (fs d) (join (path self) "nosetsid")
  ∧ plain (fs d) (ready_script self)
  ∧ plain (fs d) (notification_fd self).
Proof.
  unfold physical, touched. rewrite !Forall_app, !Forall_forall.
  intros (HP & HT & Hnames).
  split; [intros q Hq; by apply HP, elem_of_prefixes|].
  split; [intros q Hq; by apply HT, elem_of_prefixes|].
  repeat split; apply Hnames; set_solver.
Qed.

(** A successful run leaves a settled layout. *)
Lemma ensure_settles d d' :
  physical self d →
  ensure_directory_structure self d = (Ok tt, d') →
  settled self d'.
Proof.
  intros Hphys.
  destruct (physical_spec d Hphys)
    as (HplP & HplT & Hpl_log & Hpl_ns & Hpl_ready & Hpl_nfd).
  unfold ready_script, notification_fd in *.
  assert (Hinside : ∀ k, path self `prefix_of` k →
            ¬ k `prefix_of` join (scratch_dir self) "supervise").
  { intros k HPk HkT. apply Hout. by etrans. }
  assert (Hin1 : ∀ a, ¬ join (path self) a
                        `prefix_of` join (scratch_dir self) "supervise")
    by (intros a; apply Hinside, prefix_join).
  assert (Hin2 : ∀ a b, ¬ join (join (path self) a) b
                          `prefix_of` join (scratch_dir self) "supervise").
  { intros a b. apply Hinside. etrans; apply prefix_join. }
  unfold ensure_directory_structure, assert_exists, ensure_logs, ensure_dir.
  unfold ready_script, notification_fd.
  unfold bind at 1. unfold bind at 1, get.
  destruct (check_dir (fs d) (path self)) eqn:HcdP; [|done]. cbn [ret].
  (* log *)
  unfold bind at 1.
  destruct (ensure (path self) "log" d) as [[[]|e|] d1] eqn:H1;
    [|done|done].
  apply ensure_effect in H1 as (Hf1 & Ha1 & HP1 & HPP1 & [c1 Hlog1]);
    [|done|done].
  (* nosetsid *)
  unfold bind at 1.
  destruct (ensure (path self) "nosetsid" d1) as [[[]|e|] d2] eqn:H2;
    [|done|done].
  apply ensure_effect in H2 as (Hf2 & Ha2 & HP2 & HPP2 & [c2 Hns2]);
    [| |].
  2: { intros q Hq. eapply adds_plain; [done|]. by apply HplP. }
  2: { by eapply adds_plain. }
  pose proof (adds_some _ _ _ _ _ Ha2 Hlog1) as Hlog2.
  (* down *)
  unfold bind at 1.
  destruct (try_except (remove (join (path self) "down")) _ d2)
    as [[[]|e|] d3] eqn:H3; [|done|done].
  apply remove_effect in H3 as (Hf3 & Hdown3 & T3); [|apply join_not_nil].
  (* notification-fd *)
  unfold bind at 1, get. unfold bind at 1.
  match goal with
  | |- context [(if exists_ ?a ?b then ?x else ?y) d3] =>
      destruct ((if exists_ a b then x else y) d3)
        as [[[]|e|] d4] eqn:H4; [|done|done]
  end.
  assert (Hpl2 : ∀ q, plain (fs d) q → plain (fs d2) q).
  { intros q Hq. eapply adds_plain; [done|]. by eapply adds_plain. }
  assert (Hpl_ready3 : plain (fs d3) (join (path self) "ready")).
  { eapply plain_lstat_eq; [by apply Hpl2|].
    apply T3. by apply join_not_prefix_join. }
  assert (Hpl_nfd3 : plain (fs d3) (join (path self) "notification-fd")).
  { eapply plain_lstat_eq; [by apply Hpl2|].
    apply T3. by apply join_not_prefix_join. }
  assert (Hstep4 :
    fds d4 = fds d3
    ∧ (∀ k, k ≠ join (path self) "notification-fd" →
            lstat (fs d4) k = lstat (fs d3) k)
    ∧ (exists_ (fs d3) (join (path self) "ready") = true →
       lstat (fs d4) (join (path self) "notification-fd")
       = Some (File (py_str (lowest_free (fds d3)) +:+ newline)))).
  { destruct (exists_ (fs d3) (join (path self) "ready")).
    - apply write_fd_effect in H4 as (_ & Hf4 & Hnfd4 & T4); done.
    - injection H4 as <-. done. }
  destruct Hstep4 as (Hf4 & T4 & Hnfd4). clear H4.
  (* the scratch directory *)
  unfold bind at 1.
  destruct (_ensuredirs (join (scratch_dir self) "supervise") d4)
    as [[[]|e|] d5] eqn:H5; [|done|done].
  unfold _ensuredirs in H5.
  pose proof (ensuredirs_grows _ _ _ _ H5) as [Hg5 Hf5].
  assert (HplT4 : ∀ q, q `prefix_of` join (scratch_dir self) "supervise" →
            plain (fs d4) q).
  { intros q Hq.
    eapply plain_lstat_eq; [by apply Hpl2, HplT|].
    rewrite T4.
    - apply T3. intros Hdown. apply (Hin1 "down"). by etrans.
    - intros ->. by apply (Hin1 "notification-fd"). }
  pose proof (ensuredirs_post _ _ _ _ (le_n _) HplT4 H5) as [HT5 HTT5].
  (* the link *)
  intros H6.
  apply ln_effect in H6 as (Hf6 & Hlink); [|apply join_not_nil].
  rewrite basename_join in Hlink.
  assert (T6 : ∀ k, k ≠ join (path self) "supervise" →
                    k ≠ join (join (path self) "supervise") "supervise" →
                    lstat (fs d') k = lstat (fs d5) k).
  { intros k Hk1 Hk2.
    destruct Hlink as [(_ & _ & Hfr)|(_ & _ & Hfr)]; by apply Hfr. }
  (* entries of the service directory that are there stay as they are *)
  assert (Tsome : ∀ k x,
            lstat (fs d2) k = Some x →
            ¬ join (path self) "down" `prefix_of` k →
            k ≠ join (path self) "notification-fd" →
            k ≠ join (path self) "supervise" →
            k ≠ join (join (path self) "supervise") "supervise" →
            lstat (fs d') k = Some x).
  { intros k x Hk Hdown Hnfd Hl1 Hl2.
    rewrite T6 by done. apply (grows_some _ _ _ _ _ Hg5).
    rewrite T4 by done. by rewrite T3. }
  assert (Tin : ∀ k,
            path self `prefix_of` k →
            k ≠ join (path self) "notification-fd" →
            k ≠ join (path self) "supervise" →
            k ≠ join (join (path self) "supervise") "supervise" →
            lstat (fs d') k = lstat (fs d3) k).
  { intros k HPk Hnfd Hl1 Hl2.
    rewrite T6 by done.
    rewrite (grows_outside _ _ _ _ Hg5) by by apply Hinside.
    by apply T4. }
  unfold settled, ready_script, notification_fd.
  split; [|split; [|split; [|split; [|split; [|split; [|split; [|split]]]]]]].
  - apply (Tsome _ _ HP2).
    + apply join_not_prefix. done.
    + symmetry. by apply join_neq_prefix.
    + symmetry. by apply join_neq_prefix.
    + symmetry. apply join_neq_prefix. apply prefix_join.
  - apply (Tsome _ _ HPP2).
    + apply join_not_prefix, dirpath_prefix.
    + symmetry. apply join_neq_prefix, dirpath_prefix.
    + symmetry. apply join_neq_prefix, dirpath_prefix.
    + symmetry. apply join_neq_prefix.
      etrans; [apply dirpath_prefix|apply prefix_join].
  - exists c1. apply (Tsome _ _ Hlog2).
    + by apply join_not_prefix_join.
    + by apply join_neq.
    + by apply join_neq.
    + symmetry. apply join_join_neq.
  - exists c2. apply (Tsome _ _ Hns2).
    + by apply join_not_prefix_join.
    + by apply join_neq.
    + by apply join_neq.
    + symmetry. apply join_join_neq.
  - rewrite Tin; [done|apply prefix_join|by apply join_neq..|].
    symmetry. apply join_join_neq.
  - assert (Hready : lstat (fs d') (join (path self) "ready")
                     = lstat (fs d3) (join (path self) "ready")).
    { apply Tin; [apply prefix_join|by apply join_neq..|].
      symmetry. apply join_join_neq. }
    rewrite (exists_lstat_eq (fs d3)) by done.
    intros Hex. rewrite Hf6, Hf5, Hf4.
    rewrite T6.
    + apply (grows_some _ _ _ _ _ Hg5). by apply Hnfd4.
    + by apply join_neq.
    + symmetry. apply join_join_neq.
  - rewrite T6; [done| |].
    + intros Heq. apply (Hin1 "supervise"). by rewrite <- Heq.
    + intros Heq. apply (Hin2 "supervise" "supervise"). by rewrite <- Heq.
  - rewrite T6; [done| |].
    + intros Heq. apply (Hin1 "supervise"). rewrite <- Heq.
      apply dirpath_prefix.
    + intros Heq. apply (Hin2 "supervise" "supervise"). rewrite <- Heq.
      apply dirpath_prefix.
  - destruct Hlink as [(Hdir & Hdest & Hfr)|(Hl & _ & _)]; [left|by right].
    split; [|done]. rewrite Hfr; [done|].
    intros Heq. apply (f_equal length) in Heq.
    unfold join in Heq. rewrite !length_app in Heq. cbn in Heq. lia.
Qed.

End Layout.

(** ** ensure_directory_structure through links *)














(** An entry that is no link is steady: following it stays at the entry. *)
Lemma plain_steady self fs c :
  c ≠ "down" → c ≠ "notification-fd" → c ≠ "supervise" →
  plain fs (join (path self) c) → steady self fs (join (path self) c).
Proof.
  intros Hdown Hnfd Hsup Hpl. split; [unfold plain in Hpl; congruence|].
  assert (Hchain : chain MAXSYMLINKS fs (join (path self) c)
                   = [join (path self) c]).
  { unfold MAXSYMLINKS. cbn [chain]. unfold plain in Hpl.
    by destruct (lstat fs (join (path self) c)) as [[?| |?]|]. }
  rewrite Hchain. apply Forall_singleton.
  unfold volatile, notification_fd.
  intros [H|[H|[H|H]]].
  - by apply join_not_prefix_join in H.
  - by apply join_neq in H.
  - by apply join_neq in H.
  - symmetry in H. by apply join_join_neq in H.
Qed.






Section Orderly.

Context (self : Service).




End Orderly.

(** A physical state with the scratch supervise directory outside the
    service directory is orderly. *)
Lemma physical_orderly self d :
  scratch_outside self → physical self d → orderly self d.
Proof.
  intros Hout Hphys. unfold physical, touched in Hphys.
  rewrite !Forall_app in Hphys. destruct Hphys as (HP & HT & Hnames).
  rewrite Forall_forall in Hnames.
  split; [|split; [|split]].
  - rewrite !Forall_app. repeat (split; [done|]).
    apply Forall_singleton, Hnames. set_solver.
  - repeat apply Forall_cons_2; [..|done]; unfold ready_script;
      (apply plain_steady; [done..|]); apply Hnames;
      unfold ready_script; set_solver.
  - intros Hin. apply Hout. etrans; [apply prefix_join|done].
  - intros Hin. exfalso. apply Hout. etrans; [apply prefix_join|done].
Qed.




(** The same happens without any link when the scratch directory is the
    service's ready entry: the first run creates that entry. *)
Example ensure_twice_scratch_at_ready :
  (ensure_directory_structure inward demo_files).1 = Ok tt
  ∧ fs (ensure_directory_structure inward demo_files).2
      !! notification_fd inward = None
  ∧ (ensure_directory_structure inward
       (ensure_directory_structure inward demo_files).2).1 = Ok tt
  ∧ fs (ensure_directory_structure inward
          (ensure_directory_structure inward demo_files).2).2
      !! notification_fd inward = Some (File ("3" +:+ newline)).
Proof. vm_compute. done. Qed.

(** A link through what a run removes breaks the second run itself: with log
    a link into the down directory, the first run creates the log there and
    removes the directory, and the second run cannot create the log again. *)
Example ensure_twice_log_into_down :
  (ensure_directory_structure demo log_into_down_files).1 = Ok tt
  ∧ (ensure_directory_structure demo
       (ensure_directory_structure demo log_into_down_files).2).1
    = Raise (EnvError ENOENT).
Proof. vm_compute. done. Qed.


(** * Further properties *)

(** ** A missing service directory *)

(** X1: on a service whose directory is missing, [svstat], [assert_ready],
    [assert_stopped] and [ensure_directory_structure] raise NoSuchService,
    named after the service, and leave everything as it was: no status query,
    no lock attempt, nothing created. *)
Theorem missing_service_raises self w :
  check_dir (w_fs w) (path self) = false →
  svstat self w = (Raise (NoSuchService (name self)), w)
  ∧ assert_ready self w = (Raise (NoSuchService (name self)), w)
  ∧ assert_stopped self w = (Raise (NoSuchService (name self)), w)
  ∧ ensure_directory_structure self (w_files w)
    = (Raise (NoSuchService (name self)), w_files w).
Proof.
  intros Hdir. pose proof (svstat_missing self w Hdir) as Hsv.
  split; [done|]. split; [|split].
  - unfold assert_ready, bind. by rewrite Hsv.
  - rewrite assert_stopped_eval. by rewrite Hsv.
  - unfold ensure_directory_structure, assert_exists.
    unfold bind at 1. unfold bind at 1, get. unfold w_fs in Hdir.
    by rewrite Hdir.
Qed.

Lemma missing_service_raises_witness :
  assert_stopped demo bare_world = (Raise (NoSuchService "web"), bare_world).
Proof.
  destruct (missing_service_raises demo bare_world) as (_ & _ & Hstopped & _).
  - vm_compute. reflexivity.
  - exact Hstopped.
Defined.

(** ** assert_ready *)

(** X2: on an existing service, [assert_ready] succeeds exactly when the
    supervisor reports the state "ready", or when there is no notification-fd
    file and the raw status is up with no sub-process or a clean instant
    restart; otherwise it raises NotReady carrying the status [svstat]
    returned.  In particular a service with a notification-fd file that the
    supervisor reports as plain "up" is not ready. *)
Theorem assert_ready_iff self w :
  check_dir (w_fs w) (path self) = true →
  ((assert_ready self w).1 = Ok tt
   ↔ state (raw_status self w) = "ready"
     ∨ (exists_ (w_fs w) (notification_fd self) = false
        ∧ up_or_restarting_cleanly (raw_status self w)))
  ∧ (∀ status,
       (svstat self w).1 = Ok status →
       (assert_ready self w).1 = Ok tt
       ∨ (assert_ready self w).1 = Raise (NotReady status)).
Proof.
  intros Hdir. unfold assert_ready, bind.
  rewrite svstat_existing by done.
  set (raw := raw_status self w).
  split.
  - destruct (exists_ (w_fs w) (notification_fd self)); cbn [negb].
    + destruct (decide (state raw ≠ "ready")) as [Hne|Heq]; cbn.
      * split; [done|]. intros [?|[? _]]; done.
      * split; [|done]. intros _. left. by destruct (decide (state raw = "ready")).
    + destruct (decide (up_or_restarting_cleanly raw)) as [Hup|Hnup].
      * cbn. split; [|done]. intros _. by right.
      * destruct (decide (state raw ≠ "ready")) as [Hne|Heq]; cbn.
        -- split; [done|]. intros [?|[_ ?]]; done.
        -- split; [|done]. intros _. left.
           by destruct (decide (state raw = "ready")).
  - intros status [= <-].
    destruct (decide (state _ ≠ "ready")); cbn; [by right|by left].
Qed.

Lemma assert_ready_iff_witness :
  (assert_ready demo
     (set_files (set_fs <[notification_fd demo := File ""]> demo_files)
        (set_status {[path demo := up_status]} demo_world))).1
  ≠ Ok tt
  ∧ (assert_ready demo (set_status {[path demo := up_status]} demo_world)).1
    = Ok tt.
Proof.
  split.
  - destruct (assert_ready_iff demo
                (set_files
                   (set_fs <[notification_fd demo := File ""]> demo_files)
                   (set_status {[path demo := up_status]} demo_world)))
      as [Hiff _]; [vm_compute; reflexivity|].
    intros Hok. apply Hiff in Hok as [Hready|[Hnone _]].
    + vm_compute in Hready. discriminate Hready.
    + vm_compute in Hnone. discriminate Hnone.
  - destruct (assert_ready_iff demo
                (set_status {[path demo := up_status]} demo_world))
      as [Hiff _]; [vm_compute; reflexivity|].
    apply Hiff. right. split; [vm_compute; reflexivity|].
    left. split; reflexivity.
Defined.

(** ** assert_stopped off the race *)

(** X3: when the status [svstat] returns is not unsupervised,
    [assert_stopped] raises NotReady carrying that status right after the
    status query: it attempts no lock, leaves an inherited lock entry in the
    environment, and touches no file. *)
Theorem assert_stopped_not_stopped self w status :
  (svstat self w).1 = Ok status → state status ≠ UNSUPERVISED →
  assert_stopped self w
  = (Raise (NotReady status),
     emit (EvSvstat (from_cwd (dirpath (path self)) (name self))) w).
Proof.
  intros Hsv Hstate. rewrite assert_stopped_eval.
  pose proof (svstat_ok_world self w status Hsv) as Hw1.
  destruct (svstat self w) as [r w1]. cbn in Hsv, Hw1. subst r w1.
  by rewrite decide_True.
Qed.

Lemma assert_stopped_not_stopped_witness :
  assert_stopped demo (set_status {[path demo := up_status]} demo_world)
  = (Raise (NotReady (replace_state "ready" up_status)),
     emit (EvSvstat ["pg"; "web"])
       (set_status {[path demo := up_status]} demo_world)).
Proof.
  apply (assert_stopped_not_stopped demo
           (set_status {[path demo := up_status]} demo_world)).
  - vm_compute. reflexivity.
  - discriminate.
Defined.

(** X4: when the process inherited the lock (the environment entry encodes
    a descriptor that is open) and the status is unsupervised,
    [assert_stopped] succeeds without any lock attempt, whoever holds the
    lock: it consumes the entry, closes the inherited handle and leaves the
    files as they are. *)
Theorem assert_stopped_with_inherited_lock self w status s fd :
  (svstat self w).1 = Ok status → state status = UNSUPERVISED →
  w_env w !! PGCTL_SERVICE_LOCK = Some s → s ≠ "" → py_int s = Some fd →
  fd ∈ w_fds w →
  assert_stopped self w
  = (Ok tt,
     closed fd
       (popped
          (emit (EvSvstat (from_cwd (dirpath (path self)) (name self))) w)))
  ∧ attempts (w_trace (assert_stopped self w).2) = attempts (w_trace w)
  ∧ w_fs (assert_stopped self w).2 = w_fs w
  ∧ w_contention (assert_stopped self w).2 = w_contention w.
Proof.
  intros Hsv Hstate Hs Hne Hint Hfd.
  assert (Heq : assert_stopped self w
    = (Ok tt,
       closed fd
         (popped
            (emit (EvSvstat (from_cwd (dirpath (path self)) (name self)))
               w)))).
  { rewrite assert_stopped_eval.
    pose proof (svstat_ok_world self w status Hsv) as Hw1.
    destruct (svstat self w) as [r w1]. cbn in Hsv, Hw1. subst r w1.
    rewrite decide_False by (by intros ?).
    rewrite (race_adopt self 9 _ s) by (by destruct w).
    rewrite Hint. rewrite decide_True by (by destruct w). done. }
  rewrite Heq. split; [done|]. cbn [snd].
  split; [|by destruct w].
  assert (Htrace :
    w_trace (closed fd (popped (emit (EvSvstat
               (from_cwd (dirpath (path self)) (name self))) w)))
    = (w_trace w ++ [EvSvstat (from_cwd (dirpath (path self)) (name self))])
      ++ [EvClose fd]) by (by destruct w).
  rewrite Htrace. unfold attempts. rewrite !count_app. cbn. lia.
Qed.

Lemma assert_stopped_with_inherited_lock_witness :
  assert_stopped demo (set_contention (replicate 10 true) handoff_world)
  = (Ok tt,
     closed 2
       (popped (emit (EvSvstat ["pg"; "web"])
                  (set_contention (replicate 10 true) handoff_world)))).
Proof.
  assert (Hsv : (svstat demo (set_contention (replicate 10 true)
                                handoff_world)).1 = Ok unsupervised_status)
    by (vm_compute; reflexivity).
  assert (Hentry : w_env (set_contention (replicate 10 true) handoff_world)
                     !! PGCTL_SERVICE_LOCK = Some "2")
    by (vm_compute; reflexivity).
  assert (Hne : "2" ≠ "") by discriminate.
  assert (Hint : py_int "2" = Some 2) by reflexivity.
  assert (Hfd : 2 ∈ w_fds (set_contention (replicate 10 true) handoff_world))
    by (vm_compute; set_solver).
  destruct (assert_stopped_with_inherited_lock demo
              (set_contention (replicate 10 true) handoff_world)
              unsupervised_status "2" 2 Hsv eq_refl Hentry Hne Hint Hfd)
    as [Heq _].
  exact Heq.
Defined.

Lemma no_numeral_char_spec a :
  no_numeral_char a = true →
  is_space a = false ∧ digit_val a = None
  ∧ a ≠ "+"%char ∧ a ≠ "-"%char.
Proof.
  destruct a as [[] [] [] [] [] [] [] []]; intros Ha;
    try (by vm_compute in Ha); by vm_compute.
Qed.

Lemma has_char_lstrip s :
  has_char no_numeral_char s = true →
  has_char no_numeral_char (lstrip s) = true.
Proof.
  induction s as [|a s IH]; [done|]. intros Hs. cbn [lstrip].
  destruct (is_space a) eqn:Hsp; [|done].
  cbn [has_char] in Hs. apply orb_true_iff in Hs as [Ha|Hs]; [|by apply IH].
  apply no_numeral_char_spec in Ha as [Ha _]. congruence.
Qed.

Lemma has_char_rstrip s :
  has_char no_numeral_char s = true →
  has_char no_numeral_char (rstrip s) = true.
Proof.
  induction s as [|a s IH]; [done|]. intros Hs. cbn [has_char] in Hs.
  destruct (has_char no_numeral_char s) eqn:Hrest.
  - specialize (IH eq_refl). cbn [rstrip].
    destruct (rstrip s) as [|b r]; [done|].
    cbn [has_char] in *. rewrite IH. apply orb_true_r.
  - rewrite orb_false_r in Hs.
    destruct (no_numeral_char_spec a Hs) as [Hsp _].
    rewrite rstrip_cons by done. cbn [has_char]. by rewrite Hs.
Qed.

Lemma digits_val_no_numeral acc s :
  has_char no_numeral_char s = true → digits_val acc s = None.
Proof.
  revert acc. induction s as [|a s IH]; [done|]. intros acc Hs.
  cbn [has_char] in Hs. cbn [digits_val].
  destruct (digit_val a) as [x|] eqn:Hd; [|done]. cbn.
  apply orb_true_iff in Hs as [Ha|Hs]; [|by apply IH].
  apply no_numeral_char_spec in Ha as (_ & Ha & _). congruence.
Qed.

Lemma unsigned_val_no_numeral s :
  has_char no_numeral_char s = true → unsigned_val s = None.
Proof.
  destruct s as [|a s]; [done|]. intros Hs. by apply digits_val_no_numeral.
Qed.

(** [int] raises ValueError on a string with such a character. *)
Lemma py_int_no_numeral s :
  has_char no_numeral_char s = true → py_int s = None.
Proof.
  intros Hs. apply has_char_lstrip, has_char_rstrip in Hs.
  unfold py_int. destruct (rstrip (lstrip s)) as [|a r]; [done|].
  cbn [has_char] in Hs.
  destruct (decide (a = "+"%char)) as [->|Hplus].
  { rewrite (unsigned_val_no_numeral r); [done|by vm_compute in Hs]. }
  destruct (decide (a = "-"%char)) as [->|Hminus].
  { rewrite (unsigned_val_no_numeral r); [done|by vm_compute in Hs]. }
  pose proof (unsigned_val_no_numeral (String a r) Hs) as Hnone.
  destruct a as [[] [] [] [] [] [] [] []]; try done.
Qed.

(** X5: when the lock entry of the environment holds a character that no
    integer numeral contains (an ASCII character other than a digit, a blank,
    a sign or the underscore), entering the lock scope raises ValueError: the
    body does not run, no lock is attempted, and the entry is gone from the
    environment. *)
Theorem flock_garbled_entry {A} self (body : Z → M A) w s :
  w_env w !! PGCTL_SERVICE_LOCK = Some s →
  has_char no_numeral_char s = true →
  flock self body w = (Raise ValueError, popped w)
  ∧ w_env (popped w) !! PGCTL_SERVICE_LOCK = None
  ∧ w_trace (popped w) = w_trace w.
Proof.
  intros Hs Hchar. pose proof (py_int_no_numeral s Hchar) as Hint.
  split; [|split].
  - unfold flock, environ_pop. unfold bind at 1. rewrite Hs.
    destruct s as [|a s]; [done|]. cbn -[py_int]. by rewrite Hint.
  - destruct w. cbn. apply lookup_delete_eq.
  - by destruct w.
Qed.

Lemma flock_garbled_entry_witness :
  flock demo (fun _ => ret tt) garbled_world
  = (Raise ValueError, popped garbled_world).
Proof.
  assert (Hentry : w_env garbled_world !! PGCTL_SERVICE_LOCK = Some "lock")
    by (vm_compute; reflexivity).
  assert (Hchar : has_char no_numeral_char "lock" = true) by reflexivity.
  destruct (flock_garbled_entry demo (fun _ => ret tt) garbled_world "lock"
              Hentry Hchar) as [Heq _].
  exact Heq.
Defined.

(** ** The lock scope, freshly acquired *)

Lemma flock_granted {A} self (body : Z → M A) w r d :
  truthy (w_env w !! PGCTL_SERVICE_LOCK) = false →
  head (w_contention w) ≠ Some true →
  ensure_directory_structure self (alloc_fd (w_files w)).2 = (r, d) →
  flock self body w =
    try_finally
      (match r with
       | Ok _ => as_cwd (path self) (body (lowest_free (w_fds w)))
       | Raise e => raise e
       | Replaced => fun w' => (Replaced, w')
       end)
      (os_close (lowest_free (w_fds w)))
      (set_files d (granted (strpath (path self)) (popped w))).
Proof.
  intros Hf Hfree Hens.
  rewrite flock_fresh by done. rewrite flock_flock_eval.
  replace (w_contention (popped w)) with (w_contention w) by by destruct w.
  rewrite bool_decide_eq_false_2 by done.
  replace (w_fds (popped w)) with (w_fds w) by by destruct w.
  unfold try_finally, bind at 1, on_files.
  replace (w_files (granted (strpath (path self)) (popped w)))
    with (alloc_fd (w_files w)).2 by by destruct w.
  rewrite Hens. by destruct r as [[]|e|].
Qed.

Lemma lock_stays_open self w r d :
  ensure_directory_structure self (alloc_fd (w_files w)).2 = (r, d) →
  fds d = {[lowest_free (w_fds w)]} ∪ w_fds w.
Proof.
  intros Hens.
  pose proof (keeps_fds_ensure_directory_structure self
                (alloc_fd (w_files w)).2) as Hfds.
  by rewrite Hens in Hfds.
Qed.

(** X6: on a service with no live supervisor, no inherited lock and the lock
    free, [foreground] ensures the directory structure under the lock and
    replaces the process by s6-supervise: the lock's descriptor is still open
    at that point and is named in the environment handed over, the debug
    marker is set, the working directory is the service directory, and
    nothing of the scope's exit (no close of the lock) has run. *)
Theorem foreground_execs_holding_lock self w d :
  strpath (path self) ∉ w_alive w →
  truthy (w_env w !! PGCTL_SERVICE_LOCK) = false →
  head (w_contention w) ≠ Some true →
  ensure_directory_structure self (alloc_fd (w_files w)).2 = (Ok tt, d) →
  ∃ env w',
    foreground self w = (Replaced, w')
    ∧ w_trace w'
      = w_trace w ++ [EvAcquire (strpath (path self));
                      EvExec (supervise_argv self) env]
    ∧ env !! PGCTL_SERVICE_LOCK = Some (py_str (lowest_free (w_fds w)))
    ∧ env !! "PGCTL_DEBUG" = Some "true"
    ∧ lowest_free (w_fds w) ∈ w_fds w'
    ∧ w_fs w' = fs d
    ∧ w_cwd w' = path self.
Proof.
  intros Halive Hf Hfree Hens.
  pose proof (lock_stays_open self w _ d Hens) as Hfds.
  unfold foreground, idempotent_supervise, svok.
  unfold bind at 1, get. rewrite bool_decide_eq_false_2 by done.
  rewrite (flock_granted self _ w (Ok tt) d) by done.
  unfold try_finally, as_cwd, supervise_env, exec_. run.
  eexists _, _. split; [reflexivity|]. cbn.
  split; [by rewrite <- app_assoc|].
  unfold PGCTL_SERVICE_LOCK.
  split; [by simplify_map_eq|]. split; [by simplify_map_eq|].
  split; [|done]. rewrite Hfds. apply elem_of_union_l. by apply elem_of_singleton.
Qed.

Lemma foreground_execs_holding_lock_witness :
  (foreground demo demo_world).1 = Replaced
  ∧ 3 ∈ w_fds (foreground demo demo_world).2.
Proof.
  assert (Halive : strpath (path demo) ∉ w_alive demo_world)
    by (vm_compute; set_solver).
  assert (Hfalsy : truthy (w_env demo_world !! PGCTL_SERVICE_LOCK) = false)
    by (vm_compute; reflexivity).
  assert (Hfree : head (w_contention demo_world) ≠ Some true) by discriminate.
  destruct (foreground_execs_holding_lock demo demo_world
              (ensure_directory_structure demo
                 (alloc_fd (w_files demo_world)).2).2
              Halive Hfalsy Hfree)
    as (env & w' & Heq & _ & _ & _ & Hopen & _).
  - vm_compute. reflexivity.
  - rewrite Heq. split; [reflexivity|]. exact Hopen.
Defined.

(** X8: on a service with no live supervisor and no inherited lock whose
    lock another process holds, [background], [foreground] and [start] raise
    Locked after the one refused attempt: nothing is launched, no directive
    is sent, no file is touched. *)
Theorem launch_locked self w :
  strpath (path self) ∉ w_alive w →
  truthy (w_env w !! PGCTL_SERVICE_LOCK) = false →
  head (w_contention w) = Some true →
  background self w
  = (Raise Locked, refused (strpath (path self)) (popped w))
  ∧ foreground self w
    = (Raise Locked, refused (strpath (path self)) (popped w))
  ∧ start self w
    = (Raise Locked, refused (strpath (path self)) (popped w))
  ∧ w_trace (refused (strpath (path self)) (popped w))
    = w_trace w ++ [EvAcquire (strpath (path self))]
  ∧ w_files (refused (strpath (path self)) (popped w)) = w_files w.
Proof.
  intros Halive Hf Hbusy.
  assert (Hb : background self w
               = (Raise Locked, refused (strpath (path self)) (popped w))).
  { unfold background, idempotent_supervise, svok.
    unfold bind at 1, get. rewrite bool_decide_eq_false_2 by done.
    rewrite flock_fresh by done. rewrite flock_flock_eval.
    replace (w_contention (popped w)) with (w_contention w) by by destruct w.
    by rewrite bool_decide_eq_true_2. }
  split; [done|]. split; [|split; [|split]].
  - unfold foreground, idempotent_supervise, svok.
    unfold bind at 1, get. rewrite bool_decide_eq_false_2 by done.
    rewrite flock_fresh by done. rewrite flock_flock_eval.
    replace (w_contention (popped w)) with (w_contention w) by by destruct w.
    by rewrite bool_decide_eq_true_2.
  - unfold start. unfold bind at 1. by rewrite Hb.
  - by destruct w.
  - by destruct w.
Qed.

Lemma launch_locked_witness :
  start demo (set_contention [true] demo_world)
  = (Raise Locked, refused "/pg/web" (popped (set_contention [true] demo_world))).
Proof.
  assert (Halive : strpath (path demo)
                   ∉ w_alive (set_contention [true] demo_world))
    by (vm_compute; set_solver).
  assert (Hfalsy : truthy (w_env (set_contention [true] demo_world)
                             !! PGCTL_SERVICE_LOCK) = false)
    by (vm_compute; reflexivity).
  destruct (launch_locked demo (set_contention [true] demo_world)
              Halive Hfalsy eq_refl) as (_ & _ & Hstart & _).
  exact Hstart.
Defined.

(** X9: on a service whose supervisor answers, [start] launches nothing and
    attempts no lock; it sends the up directive for the service path and
    nothing else. *)
Theorem start_running self w :
  strpath (path self) ∈ w_alive w →
  start self w = (Ok tt, emit (EvSvc ["-u"; strpath (path self)]) w).
Proof.
  intros Halive. unfold start. unfold bind at 1.
  unfold background. rewrite idempotent_supervise_alive by done.
  by destruct w.
Qed.

Lemma start_running_witness :
  start demo (set_alive {["/pg/web"]} demo_world)
  = (Ok tt, emit (EvSvc ["-u"; "/pg/web"]) (set_alive {["/pg/web"]} demo_world)).
Proof.
  apply (start_running demo (set_alive {["/pg/web"]} demo_world)).
  vm_compute. set_solver.
Defined.

(** The run of [background] on a stopped service whose lock is free. *)
Lemma background_fresh self w d :
  strpath (path self) ∉ w_alive w →
  truthy (w_env w !! PGCTL_SERVICE_LOCK) = false →
  head (w_contention w) ≠ Some true →
  scratch_outside self → physical self (w_files w) →
  ensure_directory_structure self (alloc_fd (w_files w)).2 = (Ok tt, d) →
  ∃ env w',
    background self w = (Ok tt, w')
    ∧ w_trace w'
      = w_trace w ++ [EvAcquire (strpath (path self));
                      EvPopen (supervise_argv self) (lowest_free (fds d)) env;
                      EvClose (lowest_free (w_fds w))]
    ∧ env !! PGCTL_SERVICE_LOCK = Some (py_str (lowest_free (w_fds w)))
    ∧ env !! "PGCTL_DEBUG" = None
    ∧ lowest_free (fds d) ≠ lowest_free (w_fds w)
    ∧ w_fds w' = w_fds w
    ∧ w_fs w' = fs d
    ∧ w_cwd w' = w_cwd w.
Proof.
  intros Halive Hf Hfree Hout Hphys Hens.
  pose proof (lock_stays_open self w _ d Hens) as Hfds.
  assert (Hsettled : settled self d).
  { eapply (ensure_settles self Hout); [|exact Hens]. exact Hphys. }
  destruct Hsettled as (_ & _ & [content Hlog] & _).
  assert (Hfslog : fs d !! join (path self) "log" = Some (File content)).
  { pose proof (join_not_nil (path self) "log").
    by destruct (join (path self) "log"). }
  assert (Hopen : open_ false (join (path self) "log") d
                  = (Ok (mkFile (lowest_free (fds d)) (join (path self) "log")),
                     set_fds (fun s => {[lowest_free (fds d)]} ∪ s) d)).
  { unfold open_. rewrite resolve_plain by (unfold plain; by rewrite Hlog).
    rewrite Hlog. unfold bind, alloc_fd, ret, set_fs, set_fds. cbn.
    by rewrite insert_id. }
  assert (Hne : lowest_free (fds d) ≠ lowest_free (w_fds w)).
  { intros Heq. apply (lowest_free_fresh (fds d)). rewrite Heq at 1.
    rewrite Hfds. apply elem_of_union_l. by apply elem_of_singleton. }
  unfold background, idempotent_supervise, svok.
  unfold bind at 1, get. rewrite bool_decide_eq_false_2 by done.
  rewrite (flock_granted self _ w (Ok tt) d) by done.
  rewrite scoped_close.
  unfold as_cwd, supervise_env, Popen, prepend_timestamps_to, close.
  unfold bind at 1, get. unfold bind at 1, modify.
  unfold try_finally. unfold bind at 1, on_files.
  cbn [w_files set_cwd set_files]. rewrite Hopen.
  run. cbn [fileno items]. unfold set_fds, w_fds in *. cbn [fds fs].
  rewrite alloc_release.
  rewrite decide_True
    by (rewrite Hfds; apply elem_of_union_l; by apply elem_of_singleton).
  exists (delete "PGCTL_DEBUG"
            (<[PGCTL_SERVICE_LOCK:=py_str (lowest_free (fds (w_files w)))]>
               (<["PGCTL_SERVICE":=strpath (path self)]>
                  (<["PGCTL_SCRATCH":=strpath (scratch_dir self)]>
                     (delete PGCTL_SERVICE_LOCK (w_env w)))))).
  eexists. split; [reflexivity|].
  destruct w as [env0 files0 cwd0 st0 al0 ct0 tr0]. cbn in *.
  rewrite Hfds, alloc_release.
  split; [by rewrite <- !app_assoc|].
  unfold PGCTL_SERVICE_LOCK.
  split; [by simplify_map_eq|]. split; [by simplify_map_eq|].
  split; [by rewrite <- Hfds|done].
Qed.

(** X7: on a service with no live supervisor, no inherited lock and the lock
    free, whose directory structure is ensured under the lock (scratch
    directory outside the service directory, no links on the way),
    [background] spawns s6-supervise exactly once, with its output on the
    freshly opened log file and an environment that names the lock's
    descriptor and carries no debug marker; it then closes the log and the
    lock, so that the descriptor table, the working directory and the files
    are as the directory structure left them. *)
Theorem background_spawns_once self w d :
  strpath (path self) ∉ w_alive w →
  truthy (w_env w !! PGCTL_SERVICE_LOCK) = false →
  head (w_contention w) ≠ Some true →
  scratch_outside self → physical self (w_files w) →
  ensure_directory_structure self (alloc_fd (w_files w)).2 = (Ok tt, d) →
  ∃ env w',
    background self w = (Ok tt, w')
    ∧ w_trace w'
      = w_trace w ++ [EvAcquire (strpath (path self));
                      EvPopen (supervise_argv self) (lowest_free (fds d)) env;
                      EvClose (lowest_free (w_fds w))]
    ∧ env !! PGCTL_SERVICE_LOCK = Some (py_str (lowest_free (w_fds w)))
    ∧ env !! "PGCTL_DEBUG" = None
    ∧ lowest_free (fds d) ≠ lowest_free (w_fds w)
    ∧ w_fds w' = w_fds w
    ∧ w_fs w' = fs d
    ∧ w_cwd w' = w_cwd w.
Proof. apply background_fresh. Qed.

Lemma background_spawns_once_witness :
  (background demo demo_world).1 = Ok tt
  ∧ count is_launch (w_trace (background demo demo_world).2) = 1%nat
  ∧ w_fds (background demo demo_world).2 = w_fds demo_world.
Proof.
  assert (Halive : strpath (path demo) ∉ w_alive demo_world)
    by (vm_compute; set_solver).
  assert (Hfalsy : truthy (w_env demo_world !! PGCTL_SERVICE_LOCK) = false)
    by (vm_compute; reflexivity).
  assert (Hfree : head (w_contention demo_world) ≠ Some true) by discriminate.
  assert (Hout : scratch_outside demo)
    by (apply (bool_decide_unpack _); vm_compute; exact I).
  assert (Hphys : physical demo (w_files demo_world))
    by (unfold physical; repeat constructor).
  destruct (background_spawns_once demo demo_world
              (ensure_directory_structure demo
                 (alloc_fd (w_files demo_world)).2).2
              Halive Hfalsy Hfree Hout Hphys)
    as (env & w' & Heq & Htrace & _ & _ & _ & Hfds & _).
  - vm_compute. reflexivity.
  - rewrite Heq. split; [reflexivity|]. split; [|exact Hfds].
    cbn [snd]. rewrite Htrace. reflexivity.
Defined.

(** X18: when the lock was freshly acquired, the scope releases it on the
    failing paths too.  When the directory structure cannot be ensured, the
    body does not run, the error goes through and the lock's descriptor is
    closed; when the body raises, its exception goes through, the working
    directory is put back and the lock's descriptor is closed. *)
Theorem flock_releases_on_failure {A} self (body : Z → M A) w :
  truthy (w_env w !! PGCTL_SERVICE_LOCK) = false →
  head (w_contention w) ≠ Some true →
  (∀ e d,
     ensure_directory_structure self (alloc_fd (w_files w)).2 = (Raise e, d) →
     flock self body w
     = (Raise e,
        closed (lowest_free (w_fds w))
          (set_files d (granted (strpath (path self)) (popped w))))
     ∧ lowest_free (w_fds w)
       ∉ w_fds (closed (lowest_free (w_fds w))
                  (set_files d (granted (strpath (path self)) (popped w)))))
  ∧ (∀ d e w1,
       ensure_directory_structure self (alloc_fd (w_files w)).2 = (Ok tt, d) →
       body (lowest_free (w_fds w))
         (set_cwd (path self)
            (set_files d (granted (strpath (path self)) (popped w))))
       = (Raise e, w1) →
       lowest_free (w_fds w) ∈ w_fds w1 →
       flock self body w
       = (Raise e, closed (lowest_free (w_fds w)) (set_cwd (w_cwd w) w1))
       ∧ lowest_free (w_fds w)
         ∉ w_fds (closed (lowest_free (w_fds w)) (set_cwd (w_cwd w) w1))).
Proof.
  intros Hf Hfree.
  assert (Hclosed : ∀ fd w0, fd ∉ w_fds (closed fd w0)).
  { intros fd w0. destruct w0 as [env [f fd_set] cwd st al ct tr]. cbn.
    rewrite elem_of_difference, elem_of_singleton. tauto. }
  split.
  - intros e d Hens. split; [|apply Hclosed].
    pose proof (lock_stays_open self w _ d Hens) as Hfds.
    rewrite (flock_granted self body w (Raise e) d) by done.
    rewrite scoped_close. unfold raise.
    replace (w_fds (set_files d (granted (strpath (path self)) (popped w))))
      with (fds d) by by destruct w.
    rewrite decide_True; [done|].
    rewrite Hfds. apply elem_of_union_l. by apply elem_of_singleton.
  - intros d e w1 Hens Hbody Hin. split; [|apply Hclosed].
    rewrite (flock_granted self body w (Ok tt) d) by done.
    rewrite scoped_close.
    unfold as_cwd, bind at 1, get. unfold bind at 1, modify.
    unfold try_finally.
    replace (w_cwd (set_files d (granted (strpath (path self)) (popped w))))
      with (w_cwd w) by by destruct w.
    rewrite Hbody.
    replace (w_fds (set_cwd (w_cwd w) w1)) with (w_fds w1) by by destruct w1.
    by rewrite decide_True.
Qed.

Lemma flock_releases_on_failure_witness :
  flock demo (fun _ => ret tt) (set_files log_dir_files demo_world)
  = (Raise (EnvError EISDIR),
     closed 3
       (set_files
          (ensure_directory_structure demo
             (alloc_fd (w_files (set_files log_dir_files demo_world))).2).2
          (granted "/pg/web" (popped (set_files log_dir_files demo_world))))).
Proof.
  assert (Hfalsy : truthy (w_env (set_files log_dir_files demo_world)
                             !! PGCTL_SERVICE_LOCK) = false)
    by (vm_compute; reflexivity).
  assert (Hfree : head (w_contention (set_files log_dir_files demo_world))
                  ≠ Some true) by discriminate.
  destruct (flock_releases_on_failure demo (fun _ => ret tt)
              (set_files log_dir_files demo_world) Hfalsy Hfree)
    as [Hfail _].
  destruct (Hfail (EnvError EISDIR)
              (ensure_directory_structure demo
                 (alloc_fd (w_files (set_files log_dir_files demo_world))).2).2)
    as [Heq _].
  - vm_compute. reflexivity.
  - exact Heq.
Defined.

(** ** The lock handoff *)

(** X10: the lock entry [supervise_env] writes is read back by [flock]: in a
    process whose environment is the mapping built for lock handle [lock],
    entering the lock scope adopts exactly [lock] (body run on it, then
    closed), for every handle and service. *)
Theorem lock_handoff_round_trip {A} parent child lock debug w env wc
    (body : Z → M A) :
  (supervise_env parent lock debug w).1 = Ok (Frozen env) →
  w_env wc = env →
  flock child body wc = try_finally (body lock) (os_close lock) (popped wc).
Proof.
  intros Henv Hwc. unfold supervise_env in Henv. cbn in Henv.
  injection Henv as <-.
  apply (flock_adopt child body wc (py_str lock) lock).
  - rewrite Hwc. unfold PGCTL_SERVICE_LOCK. destruct debug; by simplify_map_eq.
  - apply py_str_not_empty.
  - apply py_int_py_str.
Qed.

Lemma lock_handoff_round_trip_witness :
  flock demo (fun _ => ret tt)
    (set_env (fun _ => items (default (Frozen ∅)
                                (match (supervise_env demo 7 false demo_world).1
                                 with Ok e => Some e | _ => None end)))
       (set_files (set_fds (fun s => {[7]} ∪ s) demo_files) demo_world))
  = try_finally (ret tt) (os_close 7)
      (popped
         (set_env (fun _ => items (default (Frozen ∅)
                                     (match (supervise_env demo 7 false
                                               demo_world).1
                                      with Ok e => Some e | _ => None end)))
            (set_files (set_fds (fun s => {[7]} ∪ s) demo_files) demo_world))).
Proof.
  apply (lock_handoff_round_trip demo demo 7 false demo_world
           (items (default (Frozen ∅)
                     (match (supervise_env demo 7 false demo_world).1
                      with Ok e => Some e | _ => None end)))).
  - reflexivity.
  - reflexivity.
Defined.

(** X11: the mapping [supervise_env] builds does not depend on what the
    ambient environment holds under the four pgctl keys: inherited values of
    the scratch, service, lock and debug entries never reach the child. *)
Theorem supervise_env_ignores_ambient self lock debug w key value :
  key ∈ ["PGCTL_SCRATCH"; "PGCTL_SERVICE"; "PGCTL_SERVICE_LOCK";
         "PGCTL_DEBUG"] →
  (supervise_env self lock debug (set_env <[key := value]> w)).1
  = (supervise_env self lock debug w).1.
Proof.
  intros Hkey. unfold supervise_env. cbn. do 2 f_equal.
  unfold PGCTL_SERVICE_LOCK.
  repeat (apply elem_of_cons in Hkey as [->|Hkey]);
    [..|by apply elem_of_nil in Hkey];
    destruct debug; apply map_eq; intros i;
    rewrite ?lookup_delete, ?lookup_insert;
    repeat (rewrite ?lookup_insert, ?lookup_delete; case_decide);
    try done; congruence.
Qed.

Lemma supervise_env_ignores_ambient_witness :
  (supervise_env demo 3 false
     (set_env <["PGCTL_DEBUG" := "true"]> demo_world)).1
  = (supervise_env demo 3 false demo_world).1.
Proof.
  apply (supervise_env_ignores_ambient demo 3 false demo_world).
  set_solver.
Defined.

(** ** The directory structure *)

(** X15: when the log entry of an existing service directory is itself a
    directory, [ensure_directory_structure] raises the file error EISDIR at
    the log step and changes nothing. *)
Theorem ensure_directory_structure_log_is_directory self d :
  lstat (fs d) (path self) = Some Dir →
  lstat (fs d) (dirpath (path self)) = Some Dir →
  lstat (fs d) (join (path self) "log") = Some Dir →
  ensure_directory_structure self d = (Raise (EnvError EISDIR), d).
Proof.
  intros HP HPP Hlog.
  assert (Hpl : plain (fs d) (join (path self) "log"))
    by (unfold plain; by rewrite Hlog).
  unfold ensure_directory_structure, ensure_logs, ensure, _ensuredirs,
    assert_exists.
  rewrite dirpath_join. run.
  rewrite (check_dir_lstat _ _ HP).
  rewrite ensuredirs_noop by done.
  unfold check_file. rewrite stat_plain, Hlog by done.
  unfold open_. rewrite resolve_plain by done. by rewrite Hlog.
Qed.

Lemma ensure_directory_structure_log_is_directory_witness :
  ensure_directory_structure demo log_dir_files
  = (Raise (EnvError EISDIR), log_dir_files).
Proof.
  apply (ensure_directory_structure_log_is_directory demo log_dir_files).
  - vm_compute. reflexivity.
  - vm_compute. reflexivity.
  - vm_compute. reflexivity.
Defined.

(** X14: whatever the state of the files, [ensure_directory_structure]
    leaves the descriptor table as it found it (the notification-fd file it
    may open is closed on every path), and it either succeeds or raises
    NoSuchService, a file error or the failure of the ln command: never
    Locked, never anything else. *)
Theorem ensure_directory_structure_outcome self d :
  fds (ensure_directory_structure self d).2 = fds d
  ∧ match (ensure_directory_structure self d).1 with
    | Ok _ => True
    | Raise (NoSuchService _) | Raise (EnvError _)
    | Raise CalledProcessError => True
    | _ => False
    end.
Proof.
  split; [apply keeps_fds_ensure_directory_structure|].
  pose proof (tame_ensure_directory_structure self d) as Htame.
  by destruct (ensure_directory_structure self d) as [[[]|[]|] d'].
Qed.

(** X13: what a successful [ensure_directory_structure] leaves (scratch
    directory outside the service directory, no links on the way): log and
    nosetsid are regular files, there is no down entry, the scratch supervise
    directory exists, the service's supervise entry leads to a directory,
    and when there is a ready script the notification-fd file holds the
    number of the descriptor it was written through, followed by a newline. *)
Theorem ensure_directory_structure_layout self d d' :
  scratch_outside self → physical self d →
  ensure_directory_structure self d = (Ok tt, d') →
  (∃ content, lstat (fs d') (join (path self) "log") = Some (File content))
  ∧ (∃ content,
       lstat (fs d') (join (path self) "nosetsid") = Some (File content))
  ∧ lstat (fs d') (join (path self) "down") = None
  ∧ lstat (fs d') (join (scratch_dir self) "supervise") = Some Dir
  ∧ check_dir (fs d') (join (path self) "supervise") = true
  ∧ (exists_ (fs d') (ready_script self) = true →
     lstat (fs d') (notification_fd self)
     = Some (File (py_str (lowest_free (fds d)) +:+ newline))).
Proof.
  intros Hout Hphys Hrun.
  destruct (ensure_settles self Hout d d' Hphys Hrun)
    as (_ & _ & Hlog & Hns & Hdown & Hnfd & HT & _ & Hlink).
  pose proof (keeps_fds_ensure_directory_structure self d) as Hfds.
  rewrite Hrun in Hfds. cbn in Hfds. rewrite Hfds in Hnfd.
  repeat split; try done.
  destruct Hlink as [[Hl _]|Hl]; [by apply check_dir_lstat|].
  unfold check_dir, stat, MAXSYMLINKS. cbn [resolve].
  rewrite Hl. cbn [resolve].
  destruct (lstat (fs d') (join (scratch_dir self) "supervise")) eqn:HT';
    [|done].
  injection HT as ->. cbn. rewrite HT'. by apply bool_decide_eq_true.
Qed.

Lemma ensure_directory_structure_layout_witness :
  lstat (fs (ensure_directory_structure demo demo_files).2)
    (join (scratch_dir demo) "supervise") = Some Dir.
Proof.
  assert (Hout : scratch_outside demo)
    by (apply (bool_decide_unpack _); vm_compute; exact I).
  assert (Hphys : physical demo demo_files)
    by (unfold physical; repeat constructor).
  assert (Hrun : ensure_directory_structure demo demo_files
                 = (Ok tt, (ensure_directory_structure demo demo_files).2))
    by (vm_compute; reflexivity).
  destruct (ensure_directory_structure_layout demo demo_files _
              Hout Hphys Hrun) as (_ & _ & _ & HT & _).
  exact HT.
Defined.

(** ** Status query and stop assertion *)

(** X17: [svstat] is read-only and lock-free: whatever it returns, the
    files, the descriptor table, the environment, the supervisor's state and
    the lock are as before, the working directory is put back, no lock is
    attempted, nothing is launched, and the supervisor is asked at most
    once. *)
Theorem svstat_read_only self w :
  w_files (svstat self w).2 = w_files w
  ∧ w_env (svstat self w).2 = w_env w
  ∧ w_cwd (svstat self w).2 = w_cwd w
  ∧ w_status (svstat self w).2 = w_status w
  ∧ w_alive (svstat self w).2 = w_alive w
  ∧ w_contention (svstat self w).2 = w_contention w
  ∧ attempts (w_trace (svstat self w).2) = attempts (w_trace w)
  ∧ count is_launch (w_trace (svstat self w).2) = count is_launch (w_trace w)
  ∧ (queries (w_trace (svstat self w).2) ≤ queries (w_trace w) + 1)%nat.
Proof.
  destruct (check_dir (w_fs w) (path self)) eqn:Hdir.
  - rewrite svstat_existing by done. cbn [snd].
    assert (Ht : w_trace (emit (EvSvstat (from_cwd (dirpath (path self))
                                            (name self))) w)
                 = w_trace w ++ [EvSvstat (from_cwd (dirpath (path self))
                                             (name self))])
      by by destruct w.
    rewrite Ht. unfold attempts, queries. rewrite !count_app.
    destruct w; cbn; repeat split; lia.
  - rewrite svstat_missing by done. cbn [snd]. repeat split; lia.
Qed.

(** X16: on a service whose status is unsupervised, with no inherited lock
    and the lock free, [assert_stopped] succeeds at the first attempt when
    the directory structure can be ensured under the lock, and it leaves
    that structure behind: the files are as [ensure_directory_structure]
    left them, the lock's descriptor is closed again and the working
    directory is put back. *)
Theorem assert_stopped_ensures_structure self w status d :
  (svstat self w).1 = Ok status → state status = UNSUPERVISED →
  truthy (w_env w !! PGCTL_SERVICE_LOCK) = false →
  head (w_contention w) ≠ Some true →
  ensure_directory_structure self (alloc_fd (w_files w)).2 = (Ok tt, d) →
  (assert_stopped self w).1 = Ok tt
  ∧ w_fs (assert_stopped self w).2 = fs d
  ∧ w_fds (assert_stopped self w).2 = w_fds w
  ∧ w_cwd (assert_stopped self w).2 = w_cwd w
  ∧ attempts (w_trace (assert_stopped self w).2)
    = S (attempts (w_trace w))
  ∧ count is_runaway (w_trace (assert_stopped self w).2)
    = count is_runaway (w_trace w).
Proof.
  intros Hst Hun Hf Hfree Hens.
  pose proof (svstat_ok_world self w status Hst) as Hw.
  pose proof (lock_stays_open self w _ d Hens) as Hfds.
  rewrite assert_stopped_eval.
  destruct (svstat self w) as [r w1]. cbn in Hst, Hw. subst r w1.
  rewrite decide_False by (intros Hne; by apply Hne).
  set (ev := EvSvstat (from_cwd (dirpath (path self)) (name self))).
  destruct (race_won self 9 (emit ev w)) as (r & d1 & Hens1 & Hrace).
  { by destruct w. }
  { by destruct w. }
  replace (set_fds (λ s, {[lowest_free (w_fds (emit ev w))]} ∪ s)
             (w_files (emit ev w)))
    with (alloc_fd (w_files w)).2 in Hens1 by by destruct w.
  rewrite Hens in Hens1. injection Hens1 as <- <-.
  rewrite Hrace. cbn [fst snd]. clear Hrace.
  set (w' := closed _ _).
  assert (Htr : w_trace w' = w_trace w ++ [ev; EvAcquire (strpath (path self));
                                           EvClose (lowest_free (w_fds w))]).
  { destruct w. cbn. by rewrite <- !app_assoc. }
  assert (Hfd : w_fds w' = fds d ∖ {[lowest_free (w_fds w)]})
    by by destruct w.
  split; [done|]. split; [by destruct w|]. split.
  { rewrite Hfd, Hfds. apply alloc_release. }
  split; [by destruct w|].
  rewrite Htr. unfold attempts. rewrite !count_app. cbn. lia.
Qed.

Lemma assert_stopped_ensures_structure_witness :
  (assert_stopped demo demo_world).1 = Ok tt
  ∧ w_fds (assert_stopped demo demo_world).2 = w_fds demo_world.
Proof.
  assert (Hst : (svstat demo demo_world).1 = Ok unsupervised_status)
    by (vm_compute; reflexivity).
  assert (Hun : state unsupervised_status = UNSUPERVISED) by reflexivity.
  assert (Hf : truthy (w_env demo_world !! PGCTL_SERVICE_LOCK) = false)
    by (vm_compute; reflexivity).
  assert (Hfree : head (w_contention demo_world) ≠ Some true)
    by discriminate.
  assert (Hens : ensure_directory_structure demo
                   (alloc_fd (w_files demo_world)).2
                 = (Ok tt,
                    (ensure_directory_structure demo
                       (alloc_fd (w_files demo_world)).2).2))
    by (vm_compute; reflexivity).
  destruct (assert_stopped_ensures_structure demo demo_world _ _
              Hst Hun Hf Hfree Hens) as (Hok & _ & Hfds & _).
  split; [exact Hok | exact Hfds].
Defined.

(** X19: what [ensure_directory_structure] never does (no links on the
    way): when it succeeds, every entry that was there is still there and
    unchanged, except the down entry and what is below it, the
    notification-fd file, and the supervise link.  In particular an existing
    log file keeps its content. *)
Theorem ensure_directory_structure_preserves self d d' k x :
  physical self d →
  ensure_directory_structure self d = (Ok tt, d') →
  lstat (fs d) k = Some x →
  ¬ join (path self) "down" `prefix_of` k →
  k ≠ notification_fd self →
  k ≠ join (path self) "supervise" →
  k ≠ join (join (path self) "supervise") "supervise" →
  lstat (fs d') k = Some x.
Proof.
  intros Hphys Hrun Hk Hdown Hnfd Hl1 Hl2. revert Hrun.
  unfold physical, touched in Hphys.
  rewrite !Forall_app, !Forall_forall in Hphys.
  destruct Hphys as (HP & _ & Hnames).
  assert (HplP : ∀ q, q `prefix_of` path self → plain (fs d) q)
    by (intros q Hq; by apply HP, elem_of_prefixes).
  assert (Hpl_log : plain (fs d) (join (path self) "log"))
    by (apply Hnames; set_solver).
  assert (Hpl_ns : plain (fs d) (join (path self) "nosetsid"))
    by (apply Hnames; set_solver).
  assert (Hpl_nfd : plain (fs d) (notification_fd self))
    by (apply Hnames; set_solver).
  clear HP Hnames.
  unfold ready_script, notification_fd in *.
  unfold ensure_directory_structure, assert_exists, ensure_logs, ensure_dir.
  unfold ready_script, notification_fd.
  unfold bind at 1. unfold bind at 1, get.
  destruct (check_dir (fs d) (path self)) eqn:HcdP; [|done]. cbn [ret].
  unfold bind at 1.
  destruct (ensure (path self) "log" d) as [[[]|e|] d1] eqn:H1;
    [|done|done].
  apply ensure_effect in H1 as (_ & Ha1 & _); [|done|done].
  unfold bind at 1.
  destruct (ensure (path self) "nosetsid" d1) as [[[]|e|] d2] eqn:H2;
    [|done|done].
  apply ensure_effect in H2 as (_ & Ha2 & _); [| |].
  2: { intros q Hq. eapply adds_plain; [done|]. by apply HplP. }
  2: { by eapply adds_plain. }
  unfold bind at 1.
  destruct (try_except (remove (join (path self) "down")) _ d2)
    as [[[]|e|] d3] eqn:H3; [|done|done].
  apply remove_effect in H3 as (_ & _ & T3); [|apply join_not_nil].
  unfold bind at 1, get. unfold bind at 1.
  match goal with
  | |- context [(if exists_ ?a ?b then ?x else ?y) d3] =>
      destruct ((if exists_ a b then x else y) d3)
        as [[[]|e|] d4] eqn:H4; [|done|done]
  end.
  assert (Hpl_nfd3 : plain (fs d3) (join (path self) "notification-fd")).
  { eapply plain_lstat_eq.
    - eapply adds_plain; [done|]. by eapply adds_plain.
    - apply T3. by apply join_not_prefix_join. }
  assert (T4 : ∀ q, q ≠ join (path self) "notification-fd" →
                    lstat (fs d4) q = lstat (fs d3) q).
  { destruct (exists_ (fs d3) (join (path self) "ready")).
    - apply write_fd_effect in H4 as (_ & _ & _ & T4); done.
    - injection H4 as <-. done. }
  clear H4.
  unfold bind at 1.
  destruct (_ensuredirs (join (scratch_dir self) "supervise") d4)
    as [[[]|e|] d5] eqn:H5; [|done|done].
  unfold _ensuredirs in H5.
  pose proof (ensuredirs_grows _ _ _ _ H5) as [Hg5 _].
  intros H6.
  apply ln_effect in H6 as (_ & Hlink); [|apply join_not_nil].
  rewrite basename_join in Hlink.
  assert (T6 : lstat (fs d') k = lstat (fs d5) k).
  { destruct Hlink as [(_ & _ & Hfr)|(_ & _ & Hfr)]; by apply Hfr. }
  rewrite T6. apply (grows_some _ _ _ _ _ Hg5).
  rewrite T4 by done. rewrite T3 by done.
  eapply adds_some; [done|]. by eapply adds_some.
Qed.

Lemma ensure_directory_structure_preserves_witness :
  lstat (fs (ensure_directory_structure demo logged_files).2)
    ["pg"; "web"; "log"]
  = Some (File "started").
Proof.
  assert (Hphys : physical demo logged_files)
    by (unfold physical; repeat constructor).
  assert (Hrun : ensure_directory_structure demo logged_files
                 = (Ok tt, (ensure_directory_structure demo logged_files).2))
    by (vm_compute; reflexivity).
  assert (Hk : lstat (fs logged_files) ["pg"; "web"; "log"]
               = Some (File "started")) by (vm_compute; reflexivity).
  apply (ensure_directory_structure_preserves demo logged_files _ _ _
           Hphys Hrun Hk).
  - apply (bool_decide_unpack _). vm_compute. exact I.
  - discriminate.
  - discriminate.
  - discriminate.
Defined.

(** X12: on a service with no live supervisor, no inherited lock and the
    lock free, whose directory structure is ensured under the lock (scratch
    directory outside the service directory, no links on the way), [start]
    spawns s6-supervise once and, only after the lock scope is left and the
    lock's descriptor closed, sends the up directive for the service path;
    nothing else is attempted. *)
Theorem start_spawns_then_directs self w d :
  strpath (path self) ∉ w_alive w →
  truthy (w_env w !! PGCTL_SERVICE_LOCK) = false →
  head (w_contention w) ≠ Some true →
  scratch_outside self → physical self (w_files w) →
  ensure_directory_structure self (alloc_fd (w_files w)).2 = (Ok tt, d) →
  ∃ env w',
    start self w = (Ok tt, w')
    ∧ w_trace w'
      = w_trace w ++ [EvAcquire (strpath (path self));
                      EvPopen (supervise_argv self) (lowest_free (fds d)) env;
                      EvClose (lowest_free (w_fds w));
                      EvSvc ["-u"; strpath (path self)]]
    ∧ env !! PGCTL_SERVICE_LOCK = Some (py_str (lowest_free (w_fds w)))
    ∧ w_fds w' = w_fds w
    ∧ w_fs w' = fs d
    ∧ w_cwd w' = w_cwd w.
Proof.
  intros Halive Hf Hfree Hout Hphys Hens.
  destruct (background_fresh self w d Halive Hf Hfree Hout Hphys Hens)
    as (env & w1 & Hbg & Htr & Hlock & _ & _ & Hfds & Hfs & Hcwd).
  exists env, (emit (EvSvc ["-u"; strpath (path self)]) w1).
  split.
  { unfold start, svc. unfold bind at 1. rewrite Hbg. by destruct w1. }
  split.
  { rewrite trace_emit, Htr. by rewrite <- app_assoc. }
  split; [done|]. by destruct w1.
Qed.

Lemma start_spawns_then_directs_witness :
  (start demo demo_world).1 = Ok tt
  ∧ w_fds (start demo demo_world).2 = w_fds demo_world.
Proof.
  assert (Halive : strpath (path demo) ∉ w_alive demo_world)
    by (vm_compute; set_solver).
  assert (Hfalsy : truthy (w_env demo_world !! PGCTL_SERVICE_LOCK) = false)
    by (vm_compute; reflexivity).
  assert (Hfree : head (w_contention demo_world) ≠ Some true) by discriminate.
  assert (Hout : scratch_outside demo)
    by (apply (bool_decide_unpack _); vm_compute; exact I).
  assert (Hphys : physical demo (w_files demo_world))
    by (unfold physical; repeat constructor).
  destruct (start_spawns_then_directs demo demo_world
              (ensure_directory_structure demo
                 (alloc_fd (w_files demo_world)).2).2
              Halive Hfalsy Hfree Hout Hphys)
    as (env & w' & Heq & _ & _ & Hfds & _).
  - vm_compute. reflexivity.
  - rewrite Heq. split; [reflexivity|exact Hfds].
Defined.
